(** * gulp-htmlcs: the file-lint-and-aggregate pipeline of [src/index.js]

    A shallow embedding of the plugin closure built by [gulpHtmlcs]:
    the option resolver, the result normalizer [formatResult], the
    per-file callback [onFile] and the stream-end callback [onStreamEnd].
    JavaScript objects are association lists in insertion order, side
    effects on the stream ([emit], [done], reporter calls) are a trace of
    events, and the mutable [lintPromiseList] is passed as state.

    The collaborators that [index.js] imports are parameters, gathered
    in [Host]: the lint engine, the file system, the configuration
    parser and the reporter factory.  A reporter call is taken to
    return: it throws, or gives a promise that settles.  [emit] is
    recorded as an event, whatever listens to it. *)

From Stdlib Require Import String Ascii List ZArith Bool Arith Lia DecimalString.
From Stdlib Require Import Permutation.
Import ListNotations.
Open Scope string_scope.
Open Scope list_scope.

(** ** JavaScript values *)

Module JS.

(** The values an options object can hold.  [VFun] stands for a function
    (or any other non-plain object), known only by an identity. *)
#[local] Unset Elimination Schemes.
Inductive value : Type :=
| VUndef
| VNull
| VBool (b : bool)
| VNum (n : Z)
| VStr (s : string)
| VFun (id : nat)
| VArr (items : list value)
| VObj (props : list (string * value)).
#[local] Set Elimination Schemes.

(** An object: its own enumerable properties, in insertion order. *)
Definition obj : Type := list (string * value).

(** [Boolean(v)], the test behind [if (v)], [a || b] and [a && b]. *)
Definition truthy (v : value) : bool :=
  match v with
  | VUndef | VNull => false
  | VBool b => b
  | VNum n => negb (n =? 0)%Z
  | VStr s => negb (s =? "")
  | VFun _ | VArr _ | VObj _ => true
  end.

(** [a || b] *)
Definition or_else (a b : value) : value := if truthy a then a else b.

Fixpoint getOwn (o : obj) (key : string) : option value :=
  match o with
  | [] => None
  | (k, v) :: rest => if k =? key then Some v else getOwn rest key
  end.

(** The names that every plain object inherits from [Object.prototype].
    All are functions, but [__proto__], which is the prototype itself. *)
Definition prototypeMembers : list string :=
  [ "constructor"; "__defineGetter__"; "__defineSetter__"; "hasOwnProperty";
    "__lookupGetter__"; "__lookupSetter__"; "isPrototypeOf";
    "propertyIsEnumerable"; "toString"; "valueOf"; "__proto__";
    "toLocaleString" ].

Definition inherited (key : string) : bool :=
  existsb (String.eqb key) prototypeMembers.

(** [o[key]] on a plain object: an own property, else the member that
    [Object.prototype] has under that name, else [undefined]. *)
Definition getProp (o : obj) (key : string) : value :=
  match getOwn o key with
  | Some v => v
  | None => if inherited key then VFun 0 else VUndef
  end.

(** [v[key]] on an arbitrary truthy value: only objects carry the
    properties looked up here. *)
Definition member (v : value) (key : string) : value :=
  match v with
  | VObj o => getProp o key
  | _ => VUndef
  end.

(** [o[key] = v]: overwrite in place, or append a new property. *)
Fixpoint setProp (o : obj) (key : string) (v : value) : obj :=
  match o with
  | [] => [(key, v)]
  | (k, w) :: rest =>
      if k =? key then (k, v) :: rest else (k, w) :: setProp rest key v
  end.

(** [delete o[key]] *)
Fixpoint deleteProp (o : obj) (key : string) : obj :=
  match o with
  | [] => []
  | (k, w) :: rest =>
      if k =? key then deleteProp rest key else (k, w) :: deleteProp rest key
  end.

Fixpoint uniqueb (ks : list string) : bool :=
  match ks with
  | [] => true
  | k :: rest => negb (existsb (String.eqb k) rest) && uniqueb rest
  end.

(** A value is well formed when no object inside it lists a key twice,
    as is the case for every JavaScript object. *)
Fixpoint wf (v : value) : bool :=
  match v with
  | VArr items => forallb wf items
  | VObj props =>
      uniqueb (map fst props) && forallb (fun kv => wf (snd kv)) props
  | _ => true
  end.

(** The own properties of a value: none unless it is a plain object. *)
Definition ownProps (v : value) : obj :=
  match v with
  | VObj props => props
  | _ => []
  end.

(** Modelled from the spec: the loop over the keys of the merged object
    in the [deep-extend] package, which is not under [src/].  Every
    property of [props] is stored into [target], combined by [f] with
    what [target] holds under that key. *)
Definition extendWith (f : value -> value -> value) : obj -> obj -> obj :=
  fix go (props target : obj) {struct props} : obj :=
    match props with
    | [] => target
    | (k, v) :: rest => go rest (setProp target k (f (getProp target k) v))
    end.

(** Modelled from the spec: the deep merge of the [deep-extend] package,
    which [src/index.js] imports and which is not under [src/].
    [assign src val] is the value stored under a key whose old value is
    [src] and whose new value is [val]: a plain object is merged into the
    old object (into a fresh one when the old value is no object), an
    array is cloned item by item, anything else overwrites. *)
Fixpoint assign (src val : value) {struct val} : value :=
  match val with
  | VObj props =>
      VObj (extendWith assign props (ownProps src))
  | VArr items => VArr (map (assign VUndef) items)
  | _ => val
  end.

(** Modelled from the spec: [deepExtend(target, arg)] of the same
    package.  An argument that is no plain object ([undefined], [null],
    an array, a primitive) is skipped. *)
Definition deepExtend (target : obj) (arg : value) : obj :=
  match arg with
  | VObj props => extendWith assign props target
  | _ => target
  end.

(** Induction over a value and, through arrays and objects, over the
    values inside it. *)
Section ValueInduction.
Variable P : value -> Prop.
Hypothesis HUndef : P VUndef.
Hypothesis HNull : P VNull.
Hypothesis HBool : forall b, P (VBool b).
Hypothesis HNum : forall n, P (VNum n).
Hypothesis HStr : forall s, P (VStr s).
Hypothesis HFun : forall id, P (VFun id).
Hypothesis HArr : forall items, Forall P items -> P (VArr items).
Hypothesis HObj :
  forall props, Forall (fun kv => P (snd kv)) props -> P (VObj props).

Fixpoint value_nested_ind (v : value) : P v :=
  match v with
  | VUndef => HUndef
  | VNull => HNull
  | VBool b => HBool b
  | VNum n => HNum n
  | VStr s => HStr s
  | VFun id => HFun id
  | VArr items =>
      HArr items
        ((fix all (l : list value) : Forall P l :=
            match l with
            | [] => Forall_nil P
            | x :: r => Forall_cons x (value_nested_ind x) (all r)
            end) items)
  | VObj props =>
      HObj props
        ((fix all (l : list (string * value))
            : Forall (fun kv => P (snd kv)) l :=
            match l with
            | [] => Forall_nil _
            | kv :: r => Forall_cons kv (value_nested_ind (snd kv)) (all r)
            end) props)
  end.
End ValueInduction.

End JS.

Import JS.

(** ** Option resolver (index.js, lines 36-68) *)

Definition defaults : obj :=
  [ ("failAfterError", VBool true);
    ("debug", VBool false);
    ("errorLevel", VObj []) ].

Definition pluginOptionsOf (options : value) : obj :=
  deepExtend defaults options.

Definition removedFields : list string :=
  [ "files"; "formatter"; "reportOutputDir"; "reporters"; "debug" ].

Definition lintOptionsOf (options : value) : obj :=
  let lintOptions := deepExtend [] options in
  let lintOptions := deleteProp lintOptions "files" in
  let lintOptions := deleteProp lintOptions "formatter" in
  let lintOptions := deleteProp lintOptions "reportOutputDir" in
  let lintOptions := deleteProp lintOptions "reporters" in
  deleteProp lintOptions "debug".

(** ** Data model *)

(** An issue record of the lint engine. *)
Module Issue.
Record t : Type := mk {
  line : Z;
  column : Z;
  rule : string;
  type : string;
  message : string;
  code : option string
}.
End Issue.

(** A normalized warning. *)
Module Warning.
Record t : Type := mk {
  line : Z;
  column : Z;
  rule : string;
  severity : value;
  text : string;
  code : option string
}.
End Warning.

Record FileLintResult : Type := {
  source : string;
  errored : bool;
  warnings : list Warning.t;
  deprecations : list value;
  invalidOptionWarnings : list value;
  ignored : bool
}.

(** The envelope [{results: [...]}] that reporters of stylelint expect. *)
Record Envelope : Type := { results : list FileLintResult }.

(** ** Result normalizer (index.js, lines 71-100) *)

Definition lowerAscii (c : ascii) : ascii :=
  let n := nat_of_ascii c in
  if (65 <=? n)%nat && (n <=? 90)%nat then ascii_of_nat (n + 32) else c.

(** Whether a string holds ASCII characters only. *)
Fixpoint isAscii (s : string) : bool :=
  match s with
  | EmptyString => true
  | String c rest => (nat_of_ascii c <? 128)%nat && isAscii rest
  end.

(** [s.toLowerCase()] for a string of ASCII characters, as the types
    ['ERROR'] and ['WARNING'] of the lint engine are: the letters A-Z are
    lower-cased.  Bytes of other characters are left as they are. *)
Fixpoint toLowerCase (s : string) : string :=
  match s with
  | EmptyString => EmptyString
  | String c rest => String (lowerAscii c) (toLowerCase rest)
  end.

(** The severity computed for one item (lines 77-80). *)
Definition severityOf (errorLevel : obj) (item : Issue.t) : value :=
  let severity := VStr (toLowerCase (Issue.type item)) in
  if truthy (getProp errorLevel (Issue.rule item))
  then or_else (member (getProp errorLevel (Issue.rule item)) "severity")
               (VStr "warning")
  else severity.

(** The callback given to [result.map]; the captured variable [errored]
    is threaded through. *)
Definition formatItem (errorLevel : obj) (item : Issue.t) (errored : bool)
  : bool * Warning.t :=
  let errored := if Issue.type item =? "ERROR" then true else errored in
  (errored,
   {| Warning.line := Issue.line item;
      Warning.column := Issue.column item;
      Warning.rule := Issue.rule item;
      Warning.severity := severityOf errorLevel item;
      Warning.text := Issue.message item;
      Warning.code := Issue.code item |}).

(** [result.map(callback)], left to right. *)
Fixpoint mapItems (errorLevel : obj) (result : list Issue.t) (errored : bool)
  : bool * list Warning.t :=
  match result with
  | [] => (errored, [])
  | item :: rest =>
      let '(errored, w) := formatItem errorLevel item errored in
      let '(errored, ws) := mapItems errorLevel rest errored in
      (errored, w :: ws)
  end.

Definition formatResult (errorLevel : obj) (result : list Issue.t)
  (source : string) : Envelope :=
  let '(errored, warnings) := mapItems errorLevel result false in
  {| results :=
       [ {| source := source;
            errored := errored;
            warnings := warnings;
            deprecations := [];
            invalidOptionWarnings := [];
            ignored := false |} ] |}.

(** ** The stream and its collaborators *)

(** A Vinyl file: its contents are [null], a stream, or a buffer. *)
Inductive Contents : Type :=
| Null
| Stream
| Buffer (text : string).

Record File : Type := { contents : Contents; path : string }.

Definition isNull (file : File) : bool :=
  match contents file with Null => true | _ => false end.

Definition isStream (file : File) : bool :=
  match contents file with Stream => true | _ => false end.

(** A thrown JavaScript error, known by its message; the empty message
    stands for an error, or another thrown value, that has none. *)
Definition Exn : Type := string.

(** [new PluginError(plugin, messageOrError, {showStack})] *)
Inductive Cause : Type :=
| Message (m : string)
| Wrapped (error : Exn).

Record PluginError : Type := {
  plugin : string;
  cause : Cause;
  showStack : bool
}.

(** What the plugin does to the outside, in order. *)
Inductive Event : Type :=
| Emit (e : PluginError)
| FileDone (data : option File)
| Reported (index : nat) (lintResults : list FileLintResult)
| StreamDone
| Uncaught (error : Exn).

(** A reporter call throws, or returns a promise that is fulfilled or
    is rejected at some instant. *)
Inductive Promised : Type :=
| Fulfilled
| Rejected (instant : nat) (error : Exn).

Inductive Outcome : Type :=
| Threw (error : Exn)
| Returned (promise : Promised).

Definition Reporter : Type := list FileLintResult -> Outcome.

(** The imported modules, used as black boxes: [htmlcs.hint], called
    with or without a configuration; [fs.readFileSync] and
    [htmlcsConfig.parse], which may throw, and whose errors carry a
    message; and [reporterFactory]. *)
Record Host : Type := {
  Config : Type;
  hint : option Config -> string -> list Issue.t;
  readFileSync : value -> Exn + string;
  parse : string -> Exn + Config;
  reporterFactory : value -> obj -> Reporter
}.

Definition pluginName : string := "gulp-htmlcs".

(** The closure built by one call of [gulpHtmlcs]. *)
Record Plugin : Type := {
  pluginOptions : obj;
  lintOptions : obj;
  reporters : list Reporter;
  errorLevel : obj
}.

(** Lines 36-70.  The data model makes [reporters] an array and
    [errorLevel] a mapping; a value of another kind is read here as
    having no reporter and no entry. *)
Definition gulpHtmlcs (h : Host) (options : value) : Plugin :=
  let pluginOptions := pluginOptionsOf options in
  {| pluginOptions := pluginOptions;
     lintOptions := lintOptionsOf options;
     reporters :=
       map (fun config => reporterFactory h config pluginOptions)
           (match or_else (getProp pluginOptions "reporters") (VArr []) with
            | VArr configs => configs
            | _ => []
            end);
     errorLevel :=
       match getProp pluginOptions "errorLevel" with
       | VObj o => o
       | _ => []
       end |}.

(** ** File processor (index.js, lines 119-149) *)

(** [file.contents.toString()] *)
Definition toString (c : Contents) : string :=
  match c with
  | Buffer text => text
  | _ => ""
  end.

Definition wrappedError (p : Plugin) (error : Exn) : PluginError :=
  {| plugin := pluginName;
     cause := Wrapped error;
     showStack := truthy (getProp (pluginOptions p) "debug") |}.

(** [new PluginError(pluginName, error, {showStack})] for what a
    reporter threw or rejected with.  The constructor of the
    [plugin-error] package throws when the error carries no message; an
    error without a message, or a reason that is no error, is the empty
    [Exn]. *)
Definition newPluginError (p : Plugin) (error : Exn) : Exn + PluginError :=
  if error =? "" then inl "Missing error message"
  else inr (wrappedError p error).

Definition readFile (h : Host) (filePath : value) : Exn + string :=
  readFileSync h filePath.

(** [htmlcsConfig.parse(readFile(pluginOptions.configFile))], the body
    of the [try] block. *)
Definition loadConfig (h : Host) (p : Plugin) : Exn + Config h :=
  match readFile h (getProp (pluginOptions p) "configFile") with
  | inl error => inl error
  | inr text => parse h text
  end.

(** Lines 132-144: the lint function for one file, and what was emitted
    while choosing it. *)
Definition selectHint (h : Host) (p : Plugin)
  : (string -> list Issue.t) * list Event :=
  let hint0 := hint h None in
  if truthy (getProp (pluginOptions p) "configFile") then
    match loadConfig h p with
    | inr config => (fun code => hint h (Some config) code, [])
    | inl error => (hint0, [Emit (wrappedError p error)])
    end
  else (hint0, []).

Definition streamingError : PluginError :=
  {| plugin := pluginName;
     cause := Message "Streaming is not supported";
     showStack := false |}.

Definition onFile (h : Host) (p : Plugin) (file : File)
  (lintPromiseList : list Envelope) : list Envelope * list Event :=
  match contents file with
  | Null => (lintPromiseList, [FileDone (Some file)])
  | Stream =>
      (lintPromiseList,
       [Emit streamingError; FileDone None])
  | Buffer _ =>
      let '(hint, emitted) := selectHint h p in
      (lintPromiseList
         ++ [formatResult (errorLevel p) (hint (toString (contents file)))
                          (path file)],
       emitted ++ [FileDone (Some file)])
  end.

(** ** Completion aggregator (index.js, lines 156-203) *)

(** [reporters.map(reporter => reporter(warnings))]: a reporter that
    throws ends the loop. *)
Fixpoint callReporters (reporters : list Reporter) (index : nat)
  (warnings : list FileLintResult) : list Event * (Exn + list Promised) :=
  match reporters with
  | [] => ([], inr [])
  | reporter :: rest =>
      match reporter warnings with
      | Threw error => ([Reported index warnings], inl error)
      | Returned promise =>
          let '(events, out) := callReporters rest (S index) warnings in
          (Reported index warnings :: events,
           match out with
           | inl error => inl error
           | inr promises => inr (promise :: promises)
           end)
      end
  end.

(** The rejection that settles [Promise.all]: the earliest one, the
    leftmost among those of one instant. *)
Fixpoint firstRejection (promises : list Promised) : option (nat * Exn) :=
  match promises with
  | [] => None
  | Fulfilled :: rest => firstRejection rest
  | Rejected instant error :: rest =>
      match firstRejection rest with
      | Some (instant', error') =>
          if (instant' <? instant)%nat
          then Some (instant', error')
          else Some (instant, error)
      | None => Some (instant, error)
      end
  end.

Definition flatten (lintResults : list Envelope) : list FileLintResult :=
  fold_left (fun accumulated res => accumulated ++ results res)
            lintResults [].

Definition passLintResultsThroughReporters (p : Plugin)
  (lintResults : list Envelope) : list Event * (Exn + list Envelope) :=
  let warnings := flatten lintResults in
  let '(events, out) := callReporters (reporters p) 0 warnings in
  (events,
   match out with
   | inl error => inl error
   | inr promises =>
       match firstRejection promises with
       | Some (_, error) => inl error
       | None => inr lintResults
       end
   end).

Definition isErrorSeverity (warning : Warning.t) : bool :=
  match Warning.severity warning with
  | VStr s => s =? "error"
  | _ => false
  end.

(** Lines 184-187; [res.results[0]] of an envelope without results
    raises a TypeError. *)
Definition errorCount (lintResults : list Envelope) : option nat :=
  fold_left
    (fun sum res =>
       match sum, nth_error (results res) 0 with
       | Some sum, Some first =>
           Some (sum + length (filter isErrorSeverity (warnings first)))%nat
       | _, _ => None
       end)
    lintResults (Some 0%nat).

Definition errorMessage (errorCount : nat) : string :=
  ("Failed with " ++ NilEmpty.string_of_uint (Nat.to_uint errorCount) ++ " "
   ++ (if (errorCount =? 1)%nat then "error" else "errors"))%string.

Definition thresholdError (errorCount : nat) : PluginError :=
  {| plugin := pluginName;
     cause := Message (errorMessage errorCount);
     showStack := false |}.

(** Lines 183-193, the body run on the next tick; an error thrown there
    is caught by nothing. *)
Definition deciding (p : Plugin) (lintResults : list Envelope) : list Event :=
  match errorCount lintResults with
  | Some errorCount =>
      (if truthy (getProp (pluginOptions p) "failAfterError")
          && (0 <? errorCount)%nat
       then [Emit (thresholdError errorCount)]
       else [])
      ++ [StreamDone]
  | None => [Uncaught "TypeError"]
  end.

(** Lines 195-202, the handler given to [catch]: its body also runs on
    the next tick, and builds the plugin error before it calls [done]. *)
Definition catching (p : Plugin) (error : Exn) : list Event :=
  match newPluginError p error with
  | inr e => [Emit e; StreamDone]
  | inl thrown => [Uncaught thrown]
  end.

Definition onStreamEnd (p : Plugin) (lintPromiseList : list Envelope)
  : list Event :=
  let '(events, out) := passLintResultsThroughReporters p lintPromiseList in
  events ++
  match out with
  | inr lintResults => deciding p lintResults
  | inl error => catching p error
  end.

(** [through.obj(onFile, onStreamEnd)]: every file goes through
    [onFile], in arrival order; [onStreamEnd] runs when no more arrive. *)
Fixpoint transformAll (h : Host) (p : Plugin) (files : list File)
  (lintPromiseList : list Envelope) : list Envelope * list Event :=
  match files with
  | [] => (lintPromiseList, [])
  | file :: rest =>
      let '(lintPromiseList, events) := onFile h p file lintPromiseList in
      let '(lintPromiseList, later) := transformAll h p rest lintPromiseList in
      (lintPromiseList, events ++ later)
  end.

Definition through (h : Host) (p : Plugin) (files : list File) : list Event :=
  let '(lintPromiseList, events) := transformAll h p files [] in
  events ++ onStreamEnd p lintPromiseList.

(** ** Observations on a trace *)

(** The files handed downstream: those given to [done(null, file)]. *)
Fixpoint forwarded (events : list Event) : list File :=
  match events with
  | [] => []
  | FileDone (Some file) :: rest => file :: forwarded rest
  | _ :: rest => forwarded rest
  end.

Definition isStreamDone (e : Event) : bool :=
  match e with StreamDone => true | _ => false end.

Definition isReported (e : Event) : bool :=
  match e with Reported _ _ => true | _ => false end.

Definition isFileDone (e : Event) : bool :=
  match e with FileDone _ => true | _ => false end.

(** An envelope with exactly one result, as [formatResult] builds them. *)
Definition single (e : Envelope) : Prop := exists r, results e = [r].

(** The files that are linted: neither null nor a stream. *)
Definition isBuffer (file : File) : bool :=
  negb (isNull file) && negb (isStream file).

(** The records the lint engine returns for a file of the run. *)
Definition issuesOf (h : Host) (p : Plugin) (file : File) : list Issue.t :=
  fst (selectHint h p) (toString (contents file)).

(** The number of warnings of severity ['error'] in a flattened result. *)
Definition countErrors (lintResults : list FileLintResult) : nat :=
  length (filter isErrorSeverity (flat_map warnings lintResults)).

(** [errorLevel[item.rule]]: the entry that an item's rule selects, own
    or inherited. *)
Definition levelOf (errorLevel : obj) (item : Issue.t) : value :=
  getProp errorLevel (Issue.rule item).

(** ** A concrete host, for running the model *)

Definition sampleOptions : value :=
  VObj [ ("debug", VBool true);
         ("configFile", VStr "htmlcs.json");
         ("errorLevel", VObj [("no-empty-tag", VObj [("severity", VStr "error")])]);
         ("reporters", VArr [VObj [("formatter", VStr "string")]]) ].

(** A configuration file that cannot be read. *)
Definition brokenConfigOptions : value :=
  VObj [ ("configFile", VStr "missing.json"); ("debug", VBool true) ].

(** Two reporters, the first with a formatter that does not exist. *)
Definition throwingOptions : value :=
  VObj [ ("reporters",
          VArr [ VObj [("formatter", VStr "missing")];
                 VObj [("formatter", VStr "string")] ]) ].

(** One rule turned down to a warning, another turned up to an error. *)
Definition mixedOptions : value :=
  VObj [ ("errorLevel",
          VObj [ ("attr-lowercase", VObj [("severity", VStr "warning")]);
                 ("no-empty-tag", VObj [("severity", VStr "error")]) ]) ].

Definition lenientOptions : value :=
  VObj [ ("errorLevel",
          VObj [ ("no-empty-tag", VObj [("severity", VStr "warning")]) ]) ].

Definition sampleIssue (rule type : string) : Issue.t :=
  Issue.mk 1 1 rule type "message" None.

Definition sampleHint (code : string) : list Issue.t :=
  if code =? "E" then [sampleIssue "no-empty-tag" "ERROR"]
  else if code =? "W" then [sampleIssue "no-empty-tag" "WARNING"]
  else if code =? "EW" then
    [sampleIssue "attr-lowercase" "ERROR"; sampleIssue "no-empty-tag" "WARNING"]
  else [].

Definition sampleReporter (config : value) : Reporter :=
  match member config "formatter" with
  | VStr "string" => fun _ => Returned Fulfilled
  | VStr "remote" => fun _ => Returned (Rejected 1 "EIO")
  | VStr "silent" => fun _ => Threw ""
  | _ => fun _ => Threw "formatter is not a function"
  end.

Definition sampleHost : Host :=
  {| Config := unit;
     hint := fun _ code => sampleHint code;
     readFileSync := fun filePath =>
       match filePath with
       | VStr "htmlcs.json" => inr "{}"
       | VStr "broken.json" => inr "{"
       | _ => inl "ENOENT"
       end;
     parse := fun text =>
       if text =? "{}" then inr tt else inl "Unexpected end of JSON input";
     reporterFactory := fun config _ => sampleReporter config |}.

Definition sampleFile (text : string) (path : string) : File :=
  {| contents := Buffer text; path := path |}.

(** ** Further observations and sample inputs *)

Definition isEmit (e : Event) : bool :=
  match e with Emit _ => true | _ => false end.

(** The errors emitted on the stream, in order. *)
Fixpoint emitted (events : list Event) : list PluginError :=
  match events with
  | [] => []
  | Emit e :: rest => e :: emitted rest
  | _ :: rest => emitted rest
  end.

(** The same host with another file system, parser and reporter
    factory: the lint engine is kept. *)
Definition withFileSystem (h : Host)
  (read : value -> Exn + string) (parseWith : string -> Exn + Config h)
  (factory : value -> obj -> Reporter) : Host :=
  {| Config := Config h;
     hint := hint h;
     readFileSync := read;
     parse := parseWith;
     reporterFactory := factory |}.

(** Three reporters, the second with a promise that is rejected. *)
Definition rejectingOptions : value :=
  VObj [ ("reporters",
          VArr [ VObj [("formatter", VStr "string")];
                 VObj [("formatter", VStr "remote")];
                 VObj [("formatter", VStr "string")] ]) ].

(** One reporter, whose formatter throws an error without a message. *)
Definition silentOptions : value :=
  VObj [ ("reporters", VArr [ VObj [("formatter", VStr "silent")] ]) ].

(** A configuration file that is read and parsed. *)
Definition configuredOptions : value :=
  VObj [ ("configFile", VStr "htmlcs.json") ].

(** * Properties *)

(** ** Objects as association lists *)

Module JSFacts.

Lemma getOwn_setProp_same (o : obj) (key : string) (v : value) :
  getOwn (setProp o key v) key = Some v.
Proof.
  induction o as [|[k w] rest IH]; simpl.
  - now rewrite String.eqb_refl.
  - destruct (k =? key) eqn:E; simpl; rewrite E; auto.
Qed.

Lemma getOwn_setProp_other (o : obj) (key key' : string) (v : value) :
  key <> key' -> getOwn (setProp o key v) key' = getOwn o key'.
Proof.
  intros Hne. induction o as [|[k w] rest IH]; simpl.
  - destruct (key =? key') eqn:E; auto.
    apply String.eqb_eq in E. contradiction.
  - destruct (k =? key) eqn:E; simpl.
    + apply String.eqb_eq in E. subst k.
      destruct (key =? key') eqn:E'; auto.
      apply String.eqb_eq in E'. contradiction.
    + now rewrite IH.
Qed.

Lemma getOwn_deleteProp (o : obj) (key key' : string) :
  getOwn (deleteProp o key) key' =
  if key =? key' then None else getOwn o key'.
Proof.
  induction o as [|[k w] rest IH]; simpl.
  - now destruct (key =? key').
  - destruct (k =? key) eqn:E; simpl.
    + apply String.eqb_eq in E. subst k. rewrite IH.
      now destruct (key =? key').
    + rewrite IH. destruct (key =? key') eqn:E'; auto.
      apply String.eqb_eq in E'. subst key'. now rewrite E.
Qed.

Lemma deleteProp_filter (o : obj) (key : string) :
  deleteProp o key = filter (fun kv => negb (fst kv =? key)) o.
Proof.
  induction o as [|[k w] rest IH]; simpl; auto.
  destruct (k =? key); simpl; now rewrite IH.
Qed.

Lemma existsb_eqb_false (key : string) (ks : list string) :
  existsb (String.eqb key) ks = false -> ~ In key ks.
Proof.
  intros H Hin. assert (existsb (String.eqb key) ks = true).
  { apply existsb_exists. exists key. split; auto. apply String.eqb_refl. }
  congruence.
Qed.

Lemma getOwn_absent (o : obj) (key : string) :
  ~ In key (map fst o) -> getOwn o key = None.
Proof.
  induction o as [|[k w] rest IH]; simpl; auto.
  intros H. destruct (k =? key) eqn:E.
  - apply String.eqb_eq in E. tauto.
  - apply IH. tauto.
Qed.

Lemma setProp_absent (o : obj) (key : string) (v : value) :
  ~ In key (map fst o) -> setProp o key v = o ++ [(key, v)].
Proof.
  induction o as [|[k w] rest IH]; simpl; auto.
  intros H. destruct (k =? key) eqn:E.
  - apply String.eqb_eq in E. tauto.
  - rewrite IH; tauto.
Qed.

(** What the merge loop leaves under each key, when the merged object
    lists no key twice. *)
Lemma getOwn_extendWith (f : value -> value -> value) (props : obj) :
  uniqueb (map fst props) = true ->
  forall (target : obj) (key : string),
    getOwn (extendWith f props target) key =
    match getOwn props key with
    | Some v => Some (f (getProp target key) v)
    | None => getOwn target key
    end.
Proof.
  induction props as [|[k v] rest IH]; simpl; intros U target key; auto.
  apply andb_prop in U. destruct U as [Uk U].
  apply negb_true_iff in Uk. apply existsb_eqb_false in Uk.
  rewrite (IH U). destruct (k =? key) eqn:E.
  - apply String.eqb_eq in E. subst key.
    rewrite (getOwn_absent rest k Uk). apply getOwn_setProp_same.
  - assert (k <> key) by (intros ->; rewrite String.eqb_refl in E; discriminate).
    unfold getProp. rewrite getOwn_setProp_other by assumption. reflexivity.
Qed.

(** Merging into an object that shares no key appends the properties. *)
Lemma extendWith_append (f : value -> value -> value) (props : obj) :
  uniqueb (map fst props) = true ->
  Forall (fun kv => forall src, ownProps src = [] -> f src (snd kv) = snd kv)
         props ->
  forall target : obj,
    (forall k, In k (map fst props) -> ~ In k (map fst target)) ->
    extendWith f props target = target ++ props.
Proof.
  induction props as [|[k v] rest IH]; simpl; intros U F target D.
  - now rewrite app_nil_r.
  - apply andb_prop in U. destruct U as [Uk U].
    apply negb_true_iff in Uk. apply existsb_eqb_false in Uk.
    inversion F as [|? ? Fv Frest]; subst. simpl in Fv.
    assert (Hk : ~ In k (map fst target)) by (apply D; auto).
    assert (Hs : ownProps (getProp target k) = []).
    { unfold getProp. rewrite (getOwn_absent target k Hk).
      now destruct (inherited k). }
    rewrite (Fv _ Hs), (setProp_absent target k v Hk).
    rewrite (IH U Frest).
    + now rewrite <- app_assoc.
    + intros k' Hin. rewrite map_app, in_app_iff. simpl.
      intros [H|[H|[]]].
      * apply (D k'); auto.
      * subst k'. contradiction.
Qed.

(** A well-formed value is copied as it is, whatever non-object (or
    empty object) it replaces. *)
Lemma assign_copy (v : value) :
  wf v = true ->
  forall src, ownProps src = [] -> assign src v = v.
Proof.
  induction v as [| | | | | |items IH|props IH] using value_nested_ind;
    simpl; intros W src Hsrc; auto.
  - f_equal. rewrite forallb_forall in W. rewrite Forall_forall in IH.
    rewrite <- (map_id items) at 2. apply map_ext_in.
    intros x Hx. apply IH; auto.
  - apply andb_prop in W. destruct W as [U W].
    rewrite forallb_forall in W. rewrite Forall_forall in IH.
    rewrite Hsrc. f_equal.
    rewrite extendWith_append; auto.
    apply Forall_forall. intros kv Hkv src' Hsrc'. apply IH; auto.
Qed.

Lemma deepExtend_empty (options : value) :
  wf options = true -> deepExtend [] options = ownProps options.
Proof.
  intros W. destruct options; simpl; auto.
  pose proof (assign_copy (VObj props) W VUndef eq_refl) as H.
  simpl in H. congruence.
Qed.

End JSFacts.

Import JSFacts.

(** ** Option resolver *)

Lemma getOwn_In (o : obj) (key : string) (v : value) :
  getOwn o key = Some v -> In (key, v) o.
Proof.
  induction o as [|[k w] rest IH]; simpl; [discriminate|].
  destruct (k =? key) eqn:E; intros H.
  - apply String.eqb_eq in E. left. congruence.
  - right. auto.
Qed.

Lemma wf_ownProps (options : value) :
  wf options = true ->
  uniqueb (map fst (ownProps options)) = true
  /\ forall key v, getOwn (ownProps options) key = Some v -> wf v = true.
Proof.
  destruct options; simpl; intros W;
    try (split; [reflexivity | intros; discriminate]).
  apply andb_prop in W. destruct W as [U W]. split; auto.
  intros key v H. apply getOwn_In in H.
  rewrite forallb_forall in W. apply (W (key, v) H).
Qed.

Lemma defaults_hold_no_fields (key : string) :
  ownProps (getProp defaults key) = [].
Proof.
  unfold getProp, defaults, getOwn.
  destruct ("failAfterError" =? key); auto.
  destruct ("debug" =? key); auto.
  destruct ("errorLevel" =? key); auto.
  now destruct (inherited key).
Qed.

Lemma deepExtend_ownProps (target : obj) (options : value) :
  deepExtend target options = extendWith assign (ownProps options) target.
Proof. destruct options; reflexivity. Qed.

Lemma delete_removedFields (o : obj) :
  deleteProp
    (deleteProp
       (deleteProp (deleteProp (deleteProp o "files") "formatter")
          "reportOutputDir") "reporters") "debug" =
  filter (fun kv => negb (existsb (String.eqb (fst kv)) removedFields)) o.
Proof.
  rewrite !deleteProp_filter.
  induction o as [|[k w] rest IH]; simpl; auto.
  destruct (k =? "files"); simpl; auto.
  destruct (k =? "formatter"); simpl; auto.
  destruct (k =? "reportOutputDir"); simpl; auto.
  destruct (k =? "reporters"); simpl; auto.
  destruct (k =? "debug"); simpl; auto.
  now rewrite IH.
Qed.

(** C9: for every well-formed options value, [pluginOptions] holds under
    each key the caller's value when the caller gives one and the default
    ([failAfterError: true], [debug: false], [errorLevel: {}]) otherwise;
    [lintOptions] is the caller's options without exactly the fields
    [files], [formatter], [reportOutputDir], [reporters] and [debug];
    absent options give the defaults and an empty [lintOptions]. *)
Theorem option_resolver (options : value) :
  wf options = true ->
  (forall key,
      getOwn (pluginOptionsOf options) key =
      match getOwn (ownProps options) key with
      | Some v => Some v
      | None => getOwn defaults key
      end)
  /\ lintOptionsOf options =
     filter (fun kv => negb (existsb (String.eqb (fst kv)) removedFields))
            (ownProps options)
  /\ pluginOptionsOf VUndef = defaults
  /\ lintOptionsOf VUndef = [].
Proof.
  intros W. destruct (wf_ownProps options W) as [U Wv].
  split; [|split; [|split; reflexivity]].
  - intros key. unfold pluginOptionsOf.
    rewrite deepExtend_ownProps, (getOwn_extendWith assign _ U).
    destruct (getOwn (ownProps options) key) as [v|] eqn:E; auto.
    f_equal. apply assign_copy; [eauto | apply defaults_hold_no_fields].
  - unfold lintOptionsOf. rewrite (deepExtend_empty options W).
    apply delete_removedFields.
Qed.

Lemma option_resolver_witness :
  getOwn (pluginOptionsOf sampleOptions) "debug" = Some (VBool true)
  /\ getOwn (pluginOptionsOf sampleOptions) "failAfterError" = Some (VBool true)
  /\ lintOptionsOf sampleOptions =
     [ ("configFile", VStr "htmlcs.json");
       ("errorLevel",
        VObj [("no-empty-tag", VObj [("severity", VStr "error")])]) ].
Proof.
  destruct (option_resolver sampleOptions eq_refl) as [Hp [Hl _]].
  split; [apply (Hp "debug")|split; [apply (Hp "failAfterError")|apply Hl]].
Defined.

(** ** Result normalizer *)

Lemma mapItems_spec (errorLevel : obj) (result : list Issue.t) (errored : bool) :
  mapItems errorLevel result errored =
  (errored || existsb (fun item => Issue.type item =? "ERROR") result,
   map (fun item => snd (formatItem errorLevel item false)) result).
Proof.
  revert errored. induction result as [|item rest IH]; intros errored; simpl.
  - now rewrite orb_false_r.
  - rewrite IH. destruct (Issue.type item =? "ERROR"); simpl.
    + now rewrite orb_true_r.
    + reflexivity.
Qed.

Lemma formatResult_spec (errorLevel : obj) (result : list Issue.t) (src : string) :
  formatResult errorLevel result src =
  {| results :=
       [ {| source := src;
            errored := existsb (fun item => Issue.type item =? "ERROR") result;
            warnings := map (fun item => snd (formatItem errorLevel item false)) result;
            deprecations := [];
            invalidOptionWarnings := [];
            ignored := false |} ] |}.
Proof. unfold formatResult. now rewrite mapItems_spec. Qed.

(** C3: the one result that [formatResult] builds has [errored = true]
    exactly when some record of the list has type ['ERROR'], whatever
    [errorLevel] holds. *)
Theorem errored_iff_error_record
  (errorLevel : obj) (result : list Issue.t) (src : string) :
  exists r,
    results (formatResult errorLevel result src) = [r]
    /\ (errored r = true <->
        exists item, In item result /\ Issue.type item = "ERROR").
Proof.
  rewrite formatResult_spec. eexists. split; [reflexivity|]. simpl.
  rewrite existsb_exists. split; intros [item [Hin Ht]]; exists item;
    (split; [assumption|]); now apply String.eqb_eq.
Qed.

Lemma severityOf_cases (errorLevel : obj) (item : Issue.t) :
  let w := snd (formatItem errorLevel item false) in
  let native :=
    isAscii (Issue.type item) = true ->
    Warning.severity w = VStr (toLowerCase (Issue.type item)) in
  match getOwn errorLevel (Issue.rule item) with
  | Some entry =>
      if truthy entry
      then Warning.severity w =
           if truthy (member entry "severity")
           then member entry "severity"
           else VStr "warning"
      else native
  | None =>
      if existsb (String.eqb (Issue.rule item)) prototypeMembers
      then Warning.severity w = VStr "warning"
      else native
  end.
Proof.
  cbv zeta. cbn [formatItem snd Warning.severity].
  unfold severityOf, getProp, inherited, or_else.
  destruct (getOwn errorLevel (Issue.rule item)) as [entry|].
  - destruct (truthy entry); auto.
  - destruct (existsb (String.eqb (Issue.rule item)) prototypeMembers); auto.
Qed.

(** C2, as the code has it: the warnings follow the records in order.
    For a rule with an own entry in [errorLevel] that is truthy, the
    severity is the entry's [severity] field when that is truthy and
    ['warning'] when it is missing or falsy.  For a rule without an own
    entry whose name every object inherits from [Object.prototype]
    (['constructor'], ['toString'], ...), the severity is ['warning'].
    Otherwise, the entry being absent or falsy, the severity is the
    lower-cased type, for a type of ASCII characters: ['ERROR'] gives
    ['error'] and ['WARNING'] gives ['warning']. *)
Theorem severity_resolution
  (errorLevel : obj) (result : list Issue.t) (src : string) :
  (exists r,
     results (formatResult errorLevel result src) = [r]
     /\ Forall2
          (fun item w =>
             let native :=
               isAscii (Issue.type item) = true ->
               Warning.severity w = VStr (toLowerCase (Issue.type item)) in
             match getOwn errorLevel (Issue.rule item) with
             | Some entry =>
                 if truthy entry
                 then Warning.severity w =
                      if truthy (member entry "severity")
                      then member entry "severity"
                      else VStr "warning"
                 else native
             | None =>
                 if existsb (String.eqb (Issue.rule item)) prototypeMembers
                 then Warning.severity w = VStr "warning"
                 else native
             end)
          result (warnings r))
  /\ toLowerCase "ERROR" = "error"
  /\ toLowerCase "WARNING" = "warning".
Proof.
  split; [|split; reflexivity].
  rewrite formatResult_spec. eexists. split; [reflexivity|]. cbn [warnings].
  induction result as [|item rest IH]; cbn [map]; constructor; [|exact IH].
  apply severityOf_cases.
Qed.

Lemma severity_resolution_witness :
  map Warning.severity
    (flat_map warnings
       (results (formatResult [] [ sampleIssue "constructor" "ERROR";
                                   sampleIssue "no-empty-tag" "ERROR" ]
                              "a.html")))
  = [VStr "warning"; VStr "error"].
Proof.
  destruct (severity_resolution [] [ sampleIssue "constructor" "ERROR";
                                     sampleIssue "no-empty-tag" "ERROR" ]
                                "a.html")
    as [[r [Hr HF]] _].
  rewrite Hr. cbn [flat_map]. rewrite app_nil_r.
  inversion HF as [|i1 w1 is1 ws1 H1 HF1 E1 E2]. subst.
  inversion HF1 as [|i2 w2 is2 ws2 H2 HF2 E3 E4]. subst.
  inversion HF2. subst.
  simpl in H1, H2. cbn [map]. now rewrite H1, (H2 eq_refl).
Defined.

(** C2 fails as stated: an entry of [errorLevel] with the severity field
    [''] does not give the warning that severity but ['warning']. *)
Lemma severity_override_counterexample :
  let errorLevel := [("no-empty-tag", VObj [("severity", VStr "")])] in
  let item := sampleIssue "no-empty-tag" "ERROR" in
  getOwn errorLevel (Issue.rule item) = Some (VObj [("severity", VStr "")])
  /\ getOwn [("severity", VStr "")] "severity" = Some (VStr "")
  /\ map Warning.severity
       (flat_map warnings (results (formatResult errorLevel [item] "a.html")))
     = [VStr "warning"]
  /\ VStr "warning" <> VStr "".
Proof.
  repeat split; try reflexivity. discriminate.
Qed.

(** ** File processor *)

Lemma onFile_spec (h : Host) (p : Plugin) (file : File) (L : list Envelope) :
  onFile h p file L =
  (L ++ (if isBuffer file
         then [formatResult (errorLevel p) (issuesOf h p file) (path file)]
         else []),
   snd (onFile h p file [])).
Proof.
  unfold onFile, isBuffer, isNull, isStream, issuesOf.
  destruct (contents file); simpl; try now rewrite app_nil_r.
  destruct (selectHint h p) as [hintFn emitted]. reflexivity.
Qed.

Lemma transformAll_spec (h : Host) (p : Plugin) (files : list File) :
  forall L : list Envelope,
    transformAll h p files L =
    (L ++ map (fun file =>
                 formatResult (errorLevel p) (issuesOf h p file) (path file))
              (filter isBuffer files),
     flat_map (fun file => snd (onFile h p file [])) files).
Proof.
  induction files as [|file rest IH]; intros L; simpl.
  - now rewrite app_nil_r.
  - rewrite onFile_spec, IH. f_equal.
    destruct (isBuffer file); simpl.
    + now rewrite <- app_assoc.
    + now rewrite app_nil_r.
Qed.

Lemma forwarded_app (a b : list Event) :
  forwarded (a ++ b) = forwarded a ++ forwarded b.
Proof.
  induction a as [|e a IH]; simpl; auto.
  destruct e as [| [file|] | | |]; simpl; now rewrite IH.
Qed.

Lemma selectHint_emits (h : Host) (p : Plugin) :
  snd (selectHint h p) = []
  \/ exists error, snd (selectHint h p) = [Emit (wrappedError p error)].
Proof.
  unfold selectHint.
  destruct (truthy (getProp (pluginOptions p) "configFile")); auto.
  destruct (loadConfig h p); simpl; eauto.
Qed.

Lemma forwarded_onFile (h : Host) (p : Plugin) (file : File) (L : list Envelope) :
  forwarded (snd (onFile h p file L)) = if isStream file then [] else [file].
Proof.
  unfold onFile, isStream. destruct (contents file); simpl; auto.
  destruct (selectHint h p) as [hintFn emitted] eqn:E. simpl.
  rewrite forwarded_app. simpl.
  destruct (selectHint_emits h p) as [H|[error H]];
    rewrite E in H; simpl in H; subst emitted; reflexivity.
Qed.

(** Over a whole run, the files handed downstream are the files that
    arrived, in order, without those that are streams. *)
Lemma forwarded_transformAll (h : Host) (p : Plugin) (files : list File) :
  forall L : list Envelope,
    forwarded (snd (transformAll h p files L)) =
    filter (fun file => negb (isStream file)) files.
Proof.
  intros L. rewrite transformAll_spec. simpl.
  induction files as [|file rest IH]; simpl; auto.
  rewrite forwarded_app, forwarded_onFile, IH.
  now destruct (isStream file).
Qed.

(** C5: a file whose contents are a stream makes [onFile] emit the error
    'Streaming is not supported' and call [done()] without arguments: the
    file is not handed downstream and the list of results is as before. *)
Theorem stream_file_rejected
  (h : Host) (p : Plugin) (file : File) (L : list Envelope) :
  contents file = Stream ->
  onFile h p file L = (L, [Emit streamingError; FileDone None])
  /\ forwarded (snd (onFile h p file L)) = []
  /\ fst (onFile h p file L) = L.
Proof.
  intros H. unfold onFile. rewrite H. repeat split.
Qed.

Lemma stream_file_rejected_witness :
  onFile sampleHost (gulpHtmlcs sampleHost sampleOptions)
         {| contents := Stream; path := "a.html" |} []
  = ([], [Emit streamingError; FileDone None]).
Proof.
  apply (stream_file_rejected sampleHost (gulpHtmlcs sampleHost sampleOptions)
           {| contents := Stream; path := "a.html" |} [] eq_refl).
Defined.

(** C6: a file with null contents makes [onFile] call [done(null, file)]
    at once with that same file; no collaborator is consulted and the
    list of results is as before. *)
Theorem null_file_passes_through
  (h : Host) (p : Plugin) (file : File) (L : list Envelope) :
  contents file = Null ->
  onFile h p file L = (L, [FileDone (Some file)])
  /\ forwarded (snd (onFile h p file L)) = [file]
  /\ fst (onFile h p file L) = L
  /\ forall h' : Host, onFile h' p file L = onFile h p file L.
Proof.
  intros H. unfold onFile. rewrite H. repeat split.
Qed.

Lemma null_file_passes_through_witness :
  onFile sampleHost (gulpHtmlcs sampleHost sampleOptions)
         {| contents := Null; path := "a.html" |} []
  = ([], [FileDone (Some {| contents := Null; path := "a.html" |})]).
Proof.
  apply (null_file_passes_through sampleHost
           (gulpHtmlcs sampleHost sampleOptions)
           {| contents := Null; path := "a.html" |} [] eq_refl).
Defined.

(** C7: for a buffered file, with [configFile] set and the reading or
    the parsing of that file failing, [onFile] emits the failure as a
    plugin error whose [showStack] is [Boolean(debug)], lints the contents
    with the default [hint], appends to the list an envelope holding one
    result for the file, with a warning for each record that the default
    [hint] returns, and hands the file on. *)
Theorem config_failure_continues
  (h : Host) (p : Plugin) (file : File) (text : string)
  (L : list Envelope) (error : Exn) :
  contents file = Buffer text ->
  truthy (getProp (pluginOptions p) "configFile") = true ->
  readFile h (getProp (pluginOptions p) "configFile") = inl error
  \/ (exists json,
        readFile h (getProp (pluginOptions p) "configFile") = inr json
        /\ parse h json = inl error) ->
  onFile h p file L =
  (L ++ [ {| results :=
               [ {| source := path file;
                    errored :=
                      existsb (fun item => Issue.type item =? "ERROR")
                              (hint h None text);
                    warnings :=
                      map (fun item =>
                             {| Warning.line := Issue.line item;
                                Warning.column := Issue.column item;
                                Warning.rule := Issue.rule item;
                                Warning.severity := severityOf (errorLevel p) item;
                                Warning.text := Issue.message item;
                                Warning.code := Issue.code item |})
                          (hint h None text);
                    deprecations := [];
                    invalidOptionWarnings := [];
                    ignored := false |} ] |} ],
   [ Emit {| plugin := "gulp-htmlcs";
             cause := Wrapped error;
             showStack := truthy (getProp (pluginOptions p) "debug") |};
     FileDone (Some file) ])
  /\ forwarded (snd (onFile h p file L)) = [file].
Proof.
  intros Hc Ht Hl.
  assert (Hload : loadConfig h p = inl error).
  { unfold loadConfig. destruct Hl as [Hr|[json [Hr Hp]]]; now rewrite Hr. }
  unfold onFile, selectHint. rewrite Hc, Ht, Hload. simpl.
  rewrite formatResult_spec. split; reflexivity.
Qed.

(** ** Completion aggregator *)

Lemma flatten_flat_map (L : list Envelope) : flatten L = flat_map results L.
Proof.
  unfold flatten.
  enough (G : forall acc, fold_left (fun accumulated res => accumulated ++ results res) L acc
                          = acc ++ flat_map results L) by apply (G []).
  induction L as [|e L IH]; intros acc; simpl.
  - now rewrite app_nil_r.
  - now rewrite IH, app_assoc.
Qed.

Lemma transformAll_single (h : Host) (p : Plugin) (files : list File) :
  Forall single (fst (transformAll h p files [])).
Proof.
  rewrite transformAll_spec. simpl. apply Forall_forall. intros e He.
  apply in_map_iff in He. destruct He as [file [<- _]].
  rewrite formatResult_spec. eexists. reflexivity.
Qed.

Lemma errorCount_single (L : list Envelope) :
  Forall single L -> errorCount L = Some (countErrors (flatten L)).
Proof.
  intros HL. rewrite flatten_flat_map. unfold errorCount, countErrors.
  enough (G : forall acc,
             fold_left
               (fun sum res =>
                  match sum, nth_error (results res) 0 with
                  | Some sum, Some first =>
                      Some (sum + length (filter isErrorSeverity (warnings first)))%nat
                  | _, _ => None
                  end) L (Some acc)
             = Some (acc + length (filter isErrorSeverity
                                     (flat_map warnings (flat_map results L))))%nat)
    by apply (G 0%nat).
  induction HL as [|e L [r Hr] _ IH]; intros acc; simpl.
  - f_equal. lia.
  - rewrite Hr. simpl. rewrite IH, filter_app, length_app.
    f_equal. lia.
Qed.

Lemma deciding_spec (h : Host) (p : Plugin) (files : list File) :
  let L := fst (transformAll h p files []) in
  deciding p L =
  (if truthy (getProp (pluginOptions p) "failAfterError")
      && (0 <? countErrors (flatten L))%nat
   then [Emit (thresholdError (countErrors (flatten L)))]
   else [])
  ++ [StreamDone].
Proof.
  intros L. unfold deciding.
  now rewrite (errorCount_single L (transformAll_single h p files)).
Qed.

Lemma isErrorSeverity_exact (w : Warning.t) :
  isErrorSeverity w =
  match Warning.severity w with
  | VStr s => if string_dec s "error" then true else false
  | _ => false
  end.
Proof.
  unfold isErrorSeverity. destruct (Warning.severity w); auto.
  destruct (string_dec s "error") as [->|Hne]; [reflexivity|].
  now apply String.eqb_neq.
Qed.

(** C1: at the deciding step of any run, an error is emitted exactly
    when [failAfterError] is true (truthy) and the number of warnings,
    over the results of all files, whose severity is exactly the string
    ['error'] is positive; the error then carries 'Failed with 1 error'
    for one and 'Failed with N errors', N in decimal, for more;
    otherwise the step only signals completion. *)
Theorem threshold_decision (h : Host) (p : Plugin) (files : list File) :
  let L := fst (transformAll h p files []) in
  let count :=
    length
      (filter
         (fun w =>
            match Warning.severity w with
            | VStr s => if string_dec s "error" then true else false
            | _ => false
            end)
         (flat_map warnings (flat_map results L))) in
  let failAfterError := getProp (pluginOptions p) "failAfterError" in
  deciding p L =
  (if truthy failAfterError && (0 <? count)%nat
   then [Emit {| plugin := "gulp-htmlcs";
                 cause :=
                   Message
                     (if (count =? 1)%nat then "Failed with 1 error"
                      else ("Failed with "
                            ++ NilEmpty.string_of_uint (Nat.to_uint count)
                            ++ " errors")%string);
                 showStack := false |}]
   else [])
  ++ [StreamDone]
  /\ ((exists e, In (Emit e) (deciding p L)) <->
      truthy failAfterError = true /\ (0 < count)%nat).
Proof.
  intros L count failAfterError.
  pose proof (deciding_spec h p files) as D. cbv zeta in D.
  fold L in D. fold failAfterError in D.
  assert (C : countErrors (flatten L) = count).
  { unfold countErrors, count. rewrite flatten_flat_map. f_equal.
    apply filter_ext. intros w. apply isErrorSeverity_exact. }
  rewrite C in D.
  assert (M : errorMessage count =
              if (count =? 1)%nat then "Failed with 1 error"
              else ("Failed with " ++ NilEmpty.string_of_uint (Nat.to_uint count)
                    ++ " errors")%string).
  { unfold errorMessage. destruct (count =? 1)%nat eqn:E; [|reflexivity].
    apply Nat.eqb_eq in E. now rewrite E. }
  split.
  - rewrite D. unfold thresholdError. now rewrite M.
  - rewrite D. destruct (truthy failAfterError); simpl.
    + destruct (0 <? count)%nat eqn:E; simpl.
      * apply Nat.ltb_lt in E. split; eauto.
      * apply Nat.ltb_ge in E. split.
        -- intros [e [H|[]]]. discriminate.
        -- intros [_ H]. lia.
    + split.
      * intros [e [H|[]]]. discriminate.
      * intros [H _]. discriminate.
Qed.

Lemma callReporters_shape (rs : list Reporter) (w : list FileLintResult) :
  forall i : nat,
  exists k : nat,
    fst (callReporters rs i w) = map (fun j => Reported j w) (seq i k)
    /\ (k <= length rs)%nat
    /\ (forall j r,
          (j < k - 1)%nat -> nth_error rs j = Some r ->
          exists promise, r w = Returned promise)
    /\ (forall j r error,
          nth_error rs j = Some r -> r w = Threw error -> (k <= S j)%nat)
    /\ match snd (callReporters rs i w) with
       | inl error =>
           (0 < k)%nat
           /\ exists r, nth_error rs (k - 1) = Some r /\ r w = Threw error
       | inr promises =>
           k = length rs /\ map (fun r => r w) rs = map Returned promises
       end.
Proof.
  induction rs as [|r rest IH]; intros i; simpl.
  - exists 0%nat. simpl.
    split; [reflexivity|]. split; [lia|]. split; [|split; [|auto]].
    + intros j r Hj. lia.
    + intros [|j] r error H; discriminate.
  - destruct (r w) as [error|promise] eqn:E.
    + exists 1%nat. simpl.
      split; [reflexivity|]. split; [lia|]. split; [|split; [|split]].
      * intros j r' Hj. lia.
      * intros j r' e _ _. lia.
      * lia.
      * exists r. auto.
    + destruct (IH (S i)) as [k [Hev [Hle [Hbefore [Hafter Hout]]]]].
      destruct (callReporters rest (S i) w) as [events out]. simpl in *.
      exists (S k). simpl. rewrite Hev.
      split; [reflexivity|]. split; [lia|]. split; [|split].
      * intros [|j] r' Hj Hn; simpl in Hn.
        -- inversion Hn. subst r'. eauto.
        -- apply (Hbefore j r'); [lia | assumption].
      * intros [|j] r' e Hn Ht; simpl in Hn.
        -- inversion Hn. subst r'. congruence.
        -- specialize (Hafter j r' e Hn Ht). lia.
      * destruct out as [error|promises].
        -- destruct Hout as [Hk [r' [Hn Hr]]]. split; [lia|].
           exists r'. split; auto.
           replace (k - 0)%nat with (S (k - 1)) by lia. assumption.
        -- destruct Hout as [Hk Hm]. split; [lia|]. simpl. now rewrite ?E, Hm.
Qed.

Lemma firstRejection_none (promises : list Promised) :
  firstRejection promises = None <-> Forall (eq Fulfilled) promises.
Proof.
  induction promises as [|[|t e] rest IH]; simpl.
  - split; auto.
  - rewrite IH. split; intros H; [constructor; auto | now inversion H].
  - split.
    + destruct (firstRejection rest) as [[t' e']|]; [|discriminate].
      destruct (t' <? t)%nat; discriminate.
    + intros H. inversion H. discriminate.
Qed.

Lemma firstRejection_some (promises : list Promised) (t : nat) (e : Exn) :
  firstRejection promises = Some (t, e) -> In (Rejected t e) promises.
Proof.
  induction promises as [|[|t0 e0] rest IH]; simpl; intros H.
  - discriminate.
  - auto.
  - destruct (firstRejection rest) as [[t' e']|].
    + destruct (t' <? t0)%nat; inversion H; subst; auto.
    + inversion H; subst; auto.
Qed.

Lemma passLintResults_inr (p : Plugin) (L L' : list Envelope) :
  snd (passLintResultsThroughReporters p L) = inr L' ->
  L' = L /\ Forall (fun r => r (flatten L) = Returned Fulfilled) (reporters p).
Proof.
  unfold passLintResultsThroughReporters.
  destruct (callReporters_shape (reporters p) (flatten L) 0)
    as [k [_ [_ [_ [_ Hout]]]]].
  destruct (callReporters (reporters p) 0 (flatten L)) as [events out].
  simpl in *. destruct out as [error|promises]; [discriminate|].
  destruct Hout as [_ Hm].
  destruct (firstRejection promises) as [[t e]|] eqn:F; [discriminate|].
  intros H. inversion H. subst L'. split; auto.
  apply firstRejection_none in F.
  apply Forall_forall. intros r Hr.
  assert (Hin : In (r (flatten L)) (map Returned promises)).
  { rewrite <- Hm. apply in_map_iff. eauto. }
  apply in_map_iff in Hin. destruct Hin as [pr [Hpr Hin]].
  rewrite Forall_forall in F. rewrite <- (F pr Hin) in Hpr. now symmetry.
Qed.

Lemma passLintResults_inl (p : Plugin) (L : list Envelope) (error : Exn) :
  snd (passLintResultsThroughReporters p L) = inl error ->
  exists r, In r (reporters p)
            /\ (r (flatten L) = Threw error
                \/ exists t, r (flatten L) = Returned (Rejected t error)).
Proof.
  unfold passLintResultsThroughReporters.
  destruct (callReporters_shape (reporters p) (flatten L) 0)
    as [k [_ [_ [_ [_ Hout]]]]].
  destruct (callReporters (reporters p) 0 (flatten L)) as [events out].
  simpl in *. destruct out as [e|promises].
  - intros H. inversion H. subst e. destruct Hout as [_ [r [Hn Hr]]].
    exists r. split; auto. eapply nth_error_In; eauto.
  - destruct Hout as [_ Hm].
    destruct (firstRejection promises) as [[t e]|] eqn:F; [|discriminate].
    intros H. inversion H. subst e. apply firstRejection_some in F.
    assert (Hin : In (Returned (Rejected t error)) (map (fun r => r (flatten L)) (reporters p))).
    { rewrite Hm. apply in_map. assumption. }
    apply in_map_iff in Hin. destruct Hin as [r [Hr Hin]]. eauto.
Qed.

Lemma onStreamEnd_shape (p : Plugin) (L : list Envelope) :
  exists k : nat,
    (k <= length (reporters p))%nat
    /\ onStreamEnd p L =
       map (fun i => Reported i (flatten L)) (seq 0 k)
       ++ match snd (passLintResultsThroughReporters p L) with
          | inl error => catching p error
          | inr _ => deciding p L
          end
    /\ ((k < length (reporters p))%nat ->
        (0 < k)%nat
        /\ exists r error,
            nth_error (reporters p) (k - 1) = Some r
            /\ r (flatten L) = Threw error)
    /\ (forall j r,
          (j < k - 1)%nat -> nth_error (reporters p) j = Some r ->
          exists promise, r (flatten L) = Returned promise)
    /\ (forall j r error,
          nth_error (reporters p) j = Some r -> r (flatten L) = Threw error ->
          (k <= S j)%nat).
Proof.
  unfold onStreamEnd, passLintResultsThroughReporters.
  destruct (callReporters_shape (reporters p) (flatten L) 0)
    as [k [Hev [Hle [Hbefore [Hafter Hout]]]]].
  destruct (callReporters (reporters p) 0 (flatten L)) as [events out].
  simpl in *. exists k. split; [assumption|]. subst events. split.
  - f_equal. destruct out as [error|promises]; auto.
    destruct (firstRejection promises) as [[t e]|]; auto.
  - split; [|split; assumption].
    intros Hlt. destruct out as [error|promises].
    + destruct Hout as [Hk [r [Hn Hr]]]. eauto.
    + destruct Hout as [Hk _]. lia.
Qed.

Lemma reported_only (w : list FileLintResult) (i k : nat) :
  forallb isReported (map (fun j => Reported j w) (seq i k)) = true.
Proof. revert i. induction k; intros i; simpl; auto. Qed.

Lemma reported_not_done (events : list Event) :
  forallb isReported events = true ->
  filter isStreamDone events = [] /\ filter isFileDone events = [].
Proof.
  induction events as [|e events IH]; simpl; auto.
  intros H. apply andb_prop in H. destruct H as [He H].
  destruct e; try discriminate. simpl. auto.
Qed.

(** C8 does not hold of the code: when the one reporter throws an error
    without a message, the handler given to [catch] fails while it
    builds the plugin error, before it calls [done]; nothing is emitted
    and completion is never signalled. *)
Theorem completion_lost_without_message :
  let p := gulpHtmlcs sampleHost silentOptions in
  let L := fst (transformAll sampleHost p [sampleFile "E" "a.html"] []) in
  reporters p = [fun _ => Threw ""]
  /\ onStreamEnd p L =
     [Reported 0 (flatten L); Uncaught "Missing error message"]
  /\ filter isStreamDone (onStreamEnd p L) = []
  /\ emitted (onStreamEnd p L) = [].
Proof. repeat split. Qed.

Lemma onFile_events (h : Host) (p : Plugin) (file : File) (L : list Envelope) :
  filter isReported (snd (onFile h p file L)) = []
  /\ length (filter isFileDone (snd (onFile h p file L))) = 1%nat.
Proof.
  unfold onFile. destruct (contents file); simpl; auto.
  destruct (selectHint h p) as [hintFn emitted] eqn:E. simpl.
  destruct (selectHint_emits h p) as [H|[error H]];
    rewrite E in H; simpl in H; subst emitted; simpl; auto.
Qed.

Lemma transformAll_events (h : Host) (p : Plugin) (files : list File) :
  filter isReported (snd (transformAll h p files [])) = []
  /\ length (filter isFileDone (snd (transformAll h p files []))) = length files.
Proof.
  rewrite transformAll_spec. simpl.
  induction files as [|file rest [IHr IHd]]; simpl; auto.
  destruct (onFile_events h p file []) as [Hr Hd].
  rewrite !filter_app, length_app, Hr, Hd, IHr, IHd. auto.
Qed.

Lemma transformAll_flatten (h : Host) (p : Plugin) (files : list File) :
  let flat := flatten (fst (transformAll h p files [])) in
  length flat = length (filter isBuffer files)
  /\ map source flat = map path (filter isBuffer files).
Proof.
  cbv zeta. rewrite transformAll_spec, flatten_flat_map. simpl.
  induction (filter isBuffer files) as [|file rest [IHl IHs]]; simpl; auto.
  rewrite formatResult_spec. simpl. rewrite IHl, IHs. auto.
Qed.

Lemma tail_of_onStreamEnd (h : Host) (p : Plugin) (files : list File) :
  let L := fst (transformAll h p files []) in
  let rest := match snd (passLintResultsThroughReporters p L) with
              | inl error => catching p error
              | inr _ => deciding p L
              end in
  filter isReported rest = [] /\ filter isFileDone rest = [].
Proof.
  intros L rest. unfold rest.
  destruct (snd (passLintResultsThroughReporters p L)) as [error|L'].
  - unfold catching, newPluginError. destruct (error =? ""); auto.
  - pose proof (deciding_spec h p files) as D. cbv zeta in D.
    fold L in D. rewrite D.
    destruct (truthy (getProp (pluginOptions p) "failAfterError")
              && (0 <? countErrors (flatten L))%nat); auto.
Qed.

(** C4, as the code has it: in every run the reporters are called only
    once all files are processed, in their configured order, each at most
    once and each with the flattened results, one per linted file (neither
    null nor a stream) in arrival order.  The reporters called are the
    first [k] configured: every one of them but the last returns; no
    reporter configured after one that throws is called; and when none
    throws all of them are called. *)
Theorem reporters_called_in_order (h : Host) (p : Plugin) (files : list File) :
  let processing := snd (transformAll h p files []) in
  let flat := flatten (fst (transformAll h p files [])) in
  length flat = length (filter isBuffer files)
  /\ map source flat = map path (filter isBuffer files)
  /\ filter isReported processing = []
  /\ length (filter isFileDone processing) = length files
  /\ exists (k : nat) (rest : list Event),
      through h p files =
      processing ++ map (fun i => Reported i flat) (seq 0 k) ++ rest
      /\ filter isReported rest = []
      /\ filter isFileDone rest = []
      /\ (k <= length (reporters p))%nat
      /\ ((k < length (reporters p))%nat ->
          (0 < k)%nat
          /\ exists r error,
              nth_error (reporters p) (k - 1) = Some r
              /\ r flat = Threw error)
      /\ (forall i r,
            (i < k - 1)%nat -> nth_error (reporters p) i = Some r ->
            exists promise, r flat = Returned promise)
      /\ (forall i r error,
            nth_error (reporters p) i = Some r -> r flat = Threw error ->
            (k <= S i)%nat)
      /\ ((forall r, In r (reporters p) ->
                     exists promise, r flat = Returned promise) ->
          k = length (reporters p)).
Proof.
  intros processing flat.
  destruct (transformAll_flatten h p files) as [Hl Hs].
  destruct (transformAll_events h p files) as [Hr Hd].
  repeat (split; [assumption|]).
  pose proof (tail_of_onStreamEnd h p files) as Htail. cbv zeta in Htail.
  unfold through. unfold processing, flat.
  destruct (transformAll h p files []) as [L events] eqn:T. cbn [fst snd] in *.
  destruct (onStreamEnd_shape p L)
    as [k [Hle [Hshape [Hthrow [Hbefore Hafter]]]]].
  exists k.
  exists (match snd (passLintResultsThroughReporters p L) with
          | inl error => catching p error
          | inr _ => deciding p L
          end).
  split; [now rewrite Hshape|].
  destruct Htail as [Hrr Hrd].
  repeat (split; [assumption|]).
  intros Hall.
  destruct (Nat.eq_dec k (length (reporters p))) as [|Hne]; [assumption|].
  destruct Hthrow as [_ [r [error [Hn Ht]]]]; [lia|].
  destruct (Hall r (nth_error_In _ _ Hn)) as [promise Hp]. congruence.
Qed.

(** ** Severities and the decision *)

Lemma flatten_transformAll (h : Host) (p : Plugin) (files : list File) :
  flatten (fst (transformAll h p files [])) =
  map (fun file =>
         {| source := path file;
            errored :=
              existsb (fun item => Issue.type item =? "ERROR") (issuesOf h p file);
            warnings :=
              map (fun item => snd (formatItem (errorLevel p) item false))
                  (issuesOf h p file);
            deprecations := [];
            invalidOptionWarnings := [];
            ignored := false |})
      (filter isBuffer files).
Proof.
  rewrite transformAll_spec, flatten_flat_map. simpl.
  induction (filter isBuffer files) as [|file rest IH]; simpl; auto.
  rewrite formatResult_spec. simpl. now rewrite IH.
Qed.

Lemma not_error_severity (errorLevel : obj) (item : Issue.t) :
  (Issue.type item = "ERROR"
   /\ truthy (levelOf errorLevel item) = true
   /\ member (levelOf errorLevel item) "severity" <> VStr "error")
  \/ (Issue.type item = "WARNING"
      /\ (truthy (levelOf errorLevel item) = true ->
          member (levelOf errorLevel item) "severity" <> VStr "error")) ->
  isErrorSeverity (snd (formatItem errorLevel item false)) = false.
Proof.
  unfold isErrorSeverity, formatItem, severityOf, levelOf, or_else. simpl.
  intros H.
  assert (G : forall v, v <> VStr "error" ->
                        match v with VStr s => s =? "error" | _ => false end = false).
  { intros v Hv. destruct v; auto. apply String.eqb_neq. congruence. }
  destruct (truthy (getProp errorLevel (Issue.rule item))) eqn:T.
  - destruct (truthy (member (getProp errorLevel (Issue.rule item)) "severity"));
      [|reflexivity].
    apply G. destruct H as [[_ [_ H]]|[_ H]]; auto.
  - destruct H as [[_ [H _]]|[H _]]; [discriminate|]. now rewrite H.
Qed.

Lemma overridden_error_severity (errorLevel : obj) (item : Issue.t) :
  truthy (levelOf errorLevel item) = true ->
  member (levelOf errorLevel item) "severity" = VStr "error" ->
  isErrorSeverity (snd (formatItem errorLevel item false)) = true.
Proof.
  unfold isErrorSeverity, formatItem, severityOf, levelOf, or_else. simpl.
  intros T M. now rewrite T, M.
Qed.

Lemma filter_map_none {A B : Type} (f : B -> bool) (g : A -> B) (l : list A) :
  (forall x, In x l -> f (g x) = false) -> filter f (map g l) = [].
Proof.
  induction l as [|x l IH]; intros H; cbn [map filter]; auto.
  rewrite (H x) by (simpl; auto). apply IH. intros y Hy. apply H. simpl. auto.
Qed.

Lemma countErrors_none {A : Type} (P : A -> FileLintResult -> Prop)
  (xs : list A) (rs : list FileLintResult) :
  Forall2 P xs rs ->
  (forall x r, P x r -> filter isErrorSeverity (warnings r) = []) ->
  countErrors rs = 0%nat.
Proof.
  intros HF HP. unfold countErrors.
  induction HF as [|x r xs rs Hxr _ IH]; simpl; auto.
  now rewrite filter_app, length_app, (HP x r Hxr), IH.
Qed.

(** C10, as the code has it.  When every record of type ['ERROR'] has a
    truthy entry in [errorLevel] whose severity field is not ['error'],
    and every other record has type ['WARNING'] and is not overridden to
    ['error'], each result has [errored = true] exactly when its file has
    an ['ERROR'] record, yet holds no warning of severity ['error']: the
    count is zero and no threshold error is emitted.  A ['WARNING'] record
    overridden to ['error'] makes the count positive, and the threshold
    error is emitted when [failAfterError] is true. *)
Theorem decision_follows_severities
  (h : Host) (p : Plugin) (files : list File) :
  let L := fst (transformAll h p files []) in
  let linted := filter isBuffer files in
  let count := countErrors (flatten L) in
  ((forall file item,
       In file linted -> In item (issuesOf h p file) ->
       (Issue.type item = "ERROR"
        /\ truthy (levelOf (errorLevel p) item) = true
        /\ member (levelOf (errorLevel p) item) "severity" <> VStr "error")
       \/ (Issue.type item = "WARNING"
           /\ (truthy (levelOf (errorLevel p) item) = true ->
               member (levelOf (errorLevel p) item) "severity" <> VStr "error"))) ->
   Forall2
     (fun file r =>
        source r = path file
        /\ (errored r = true <->
            exists item, In item (issuesOf h p file) /\ Issue.type item = "ERROR")
        /\ filter isErrorSeverity (warnings r) = [])
     linted (flatten L)
   /\ count = 0%nat
   /\ deciding p L = [StreamDone])
  /\ (forall file item,
         In file linted -> In item (issuesOf h p file) ->
         Issue.type item = "WARNING" ->
         truthy (levelOf (errorLevel p) item) = true ->
         member (levelOf (errorLevel p) item) "severity" = VStr "error" ->
         (0 < count)%nat
         /\ (truthy (getProp (pluginOptions p) "failAfterError") = true ->
             deciding p L = [Emit (thresholdError count); StreamDone])).
Proof.
  intros L linted count.
  pose proof (deciding_spec h p files) as D. cbv zeta in D.
  fold L in D. fold count in D.
  pose proof (flatten_transformAll h p files) as F.
  fold L in F. fold linted in F.
  split.
  - intros H.
    assert (HF : Forall2
                   (fun file r =>
                      source r = path file
                      /\ (errored r = true <->
                          exists item, In item (issuesOf h p file)
                                       /\ Issue.type item = "ERROR")
                      /\ filter isErrorSeverity (warnings r) = [])
                   linted (flatten L)).
    { rewrite F. clear F D. induction linted as [|file rest IH]; simpl.
      - constructor.
      - constructor.
        + simpl. split; [reflexivity|]. split.
          * rewrite existsb_exists.
            split; intros [item [Hin Ht]]; exists item;
              (split; [assumption|]); now apply String.eqb_eq.
          * apply filter_map_none. intros item Hin.
            apply not_error_severity. apply (H file item); simpl; auto.
        + apply IH. intros f i Hf Hi. apply (H f i); simpl; auto. }
    assert (Hc : count = 0%nat).
    { apply (countErrors_none _ _ _ HF). intros f r [_ [_ Hw]]. exact Hw. }
    split; [assumption|]. split; [assumption|].
    rewrite D, Hc. simpl. now rewrite andb_false_r.
  - intros file item Hf Hi Ht Htr Hm.
    assert (Hpos : (0 < count)%nat).
    { unfold count, countErrors. rewrite F.
      assert (Hin : In (snd (formatItem (errorLevel p) item false))
                       (filter isErrorSeverity
                          (flat_map warnings
                             (map (fun file =>
                                     {| source := path file;
                                        errored :=
                                          existsb (fun item => Issue.type item =? "ERROR")
                                                  (issuesOf h p file);
                                        warnings :=
                                          map (fun item => snd (formatItem (errorLevel p) item false))
                                              (issuesOf h p file);
                                        deprecations := [];
                                        invalidOptionWarnings := [];
                                        ignored := false |}) linted)))).
      { apply filter_In. split.
        - apply in_flat_map. eexists. split.
          + apply in_map. exact Hf.
          + cbn [warnings].
            apply (in_map (fun item => snd (formatItem (errorLevel p) item false))
                          _ _ Hi).
        - now apply overridden_error_severity. }
      destruct (filter isErrorSeverity _); [contradiction|]. simpl. lia. }
    split; [assumption|]. intros Hfae. rewrite D, Hfae.
    apply Nat.ltb_lt in Hpos. now rewrite Hpos.
Qed.

(** ** The theorems at work on the concrete host *)

Lemma config_failure_continues_witness :
  onFile sampleHost (gulpHtmlcs sampleHost brokenConfigOptions)
         (sampleFile "E" "a.html") []
  = ([ {| results :=
            [ {| source := "a.html";
                 errored := true;
                 warnings :=
                   [ {| Warning.line := 1;
                        Warning.column := 1;
                        Warning.rule := "no-empty-tag";
                        Warning.severity := VStr "error";
                        Warning.text := "message";
                        Warning.code := None |} ];
                 deprecations := [];
                 invalidOptionWarnings := [];
                 ignored := false |} ] |} ],
     [ Emit {| plugin := "gulp-htmlcs";
               cause := Wrapped "ENOENT";
               showStack := true |};
       FileDone (Some (sampleFile "E" "a.html")) ]).
Proof.
  apply (proj1 (config_failure_continues sampleHost
                  (gulpHtmlcs sampleHost brokenConfigOptions)
                  (sampleFile "E" "a.html") "E" [] "ENOENT"
                  eq_refl eq_refl (or_introl eq_refl))).
Defined.

Lemma reporters_called_in_order_witness :
  let p := gulpHtmlcs sampleHost throwingOptions in
  let files := [sampleFile "E" "a.html"] in
  exists k rest,
    through sampleHost p files =
    snd (transformAll sampleHost p files [])
    ++ map (fun i =>
              Reported i (flatten (fst (transformAll sampleHost p files []))))
           (seq 0 k)
    ++ rest
    /\ filter isReported rest = []
    /\ (k <= 1)%nat.
Proof.
  intros p files.
  destruct (reporters_called_in_order sampleHost p files)
    as (_ & _ & _ & _ & k & rest & Hthrough & Hrest & _ & _ & _ & _ & Hafter & _).
  exists k, rest. split; [exact Hthrough|]. split; [exact Hrest|].
  apply (Hafter 0%nat (sampleReporter (VObj [("formatter", VStr "missing")]))
           "formatter is not a function"); reflexivity.
Defined.

(** C4 fails as stated: of two configured reporters, the second is never
    called when the first throws. *)
Lemma second_reporter_not_called :
  let p := gulpHtmlcs sampleHost throwingOptions in
  let trace := through sampleHost p [sampleFile "E" "a.html"] in
  length (reporters p) = 2%nat
  /\ length (filter (fun e => match e with
                              | Reported 1 _ => true
                              | _ => false
                              end) trace) = 0%nat
  /\ length (filter isReported trace) = 1%nat.
Proof. repeat split. Qed.

Lemma decision_follows_severities_witness :
  let p := gulpHtmlcs sampleHost lenientOptions in
  let files := [sampleFile "E" "a.html"] in
  map errored (flatten (fst (transformAll sampleHost p files []))) = [true]
  /\ deciding p (fst (transformAll sampleHost p files [])) = [StreamDone].
Proof.
  intros p files.
  destruct (decision_follows_severities sampleHost p files) as [H _].
  destruct H as (_ & _ & Hd).
  - intros file item [<-|[]] [<-|[]]. left.
    split; [reflexivity|]. split; [reflexivity|]. discriminate.
  - split; [reflexivity | exact Hd].
Defined.

(** C10 fails as stated: every record of type ['ERROR'] is overridden to
    a severity other than ['error'], [failAfterError] is true, and the
    threshold error is emitted all the same, for a ['WARNING'] record
    overridden to ['error']. *)
Lemma overridden_errors_still_fail :
  let p := gulpHtmlcs sampleHost mixedOptions in
  let files := [sampleFile "EW" "a.html"] in
  getProp (pluginOptions p) "failAfterError" = VBool true
  /\ (forall file item,
         In file files -> In item (issuesOf sampleHost p file) ->
         Issue.type item = "ERROR" ->
         getOwn (errorLevel p) (Issue.rule item)
         = Some (VObj [("severity", VStr "warning")]))
  /\ map errored (flatten (fst (transformAll sampleHost p files []))) = [true]
  /\ through sampleHost p files =
     [ FileDone (Some (sampleFile "EW" "a.html"));
       Emit {| plugin := "gulp-htmlcs";
               cause := Message "Failed with 1 error";
               showStack := false |};
       StreamDone ].
Proof.
  intros p files. split; [reflexivity|]. split; [|split; reflexivity].
  intros file item [<-|[]] [<-|[<-|[]]] Ht.
  - reflexivity.
  - discriminate.
Qed.

(** The end-to-end scenario: two files with one ['ERROR'] record each,
    [failAfterError] left at its default, one reporter. *)
Example two_failing_files :
  through sampleHost
    (gulpHtmlcs sampleHost
       (VObj [("reporters", VArr [VObj [("formatter", VStr "string")]])]))
    [sampleFile "E" "a.html"; sampleFile "E" "b.html"]
  = [ FileDone (Some (sampleFile "E" "a.html"));
      FileDone (Some (sampleFile "E" "b.html"));
      Reported 0
        (flat_map results
           [ formatResult [] [sampleIssue "no-empty-tag" "ERROR"] "a.html";
             formatResult [] [sampleIssue "no-empty-tag" "ERROR"] "b.html" ]);
      Emit {| plugin := "gulp-htmlcs";
              cause := Message "Failed with 2 errors";
              showStack := false |};
      StreamDone ].
Proof. reflexivity. Qed.

(** * Further properties of the code *)

(** ** The normalizer, field by field *)

(** X1: [formatResult] gives one result whose source is the given one,
    whose [deprecations] and [invalidOptionWarnings] are empty and whose
    [ignored] is false; its warnings follow the records one for one and
    in order, each with the record's line, column, rule, message (as
    [text]) and code. *)
Theorem formatResult_keeps_fields
  (errorLevel : obj) (result : list Issue.t) (src : string) :
  exists r,
    results (formatResult errorLevel result src) = [r]
    /\ source r = src
    /\ deprecations r = []
    /\ invalidOptionWarnings r = []
    /\ ignored r = false
    /\ length (warnings r) = length result
    /\ map (fun w => (Warning.line w, Warning.column w, Warning.rule w,
                      Warning.text w, Warning.code w)) (warnings r)
       = map (fun item => (Issue.line item, Issue.column item, Issue.rule item,
                           Issue.message item, Issue.code item)) result.
Proof.
  rewrite formatResult_spec. eexists. split; [reflexivity|]. simpl.
  repeat (split; [reflexivity|]). split.
  - apply length_map.
  - rewrite map_map. apply map_ext. reflexivity.
Qed.

Lemma isErrorSeverity_formatItem (errorLevel : obj) (item : Issue.t) :
  isErrorSeverity (snd (formatItem errorLevel item false)) =
  if truthy (levelOf errorLevel item)
  then match member (levelOf errorLevel item) "severity" with
       | VStr s => s =? "error"
       | _ => false
       end
  else toLowerCase (Issue.type item) =? "error".
Proof.
  unfold isErrorSeverity, formatItem, severityOf, levelOf, or_else. simpl.
  destruct (truthy (getProp errorLevel (Issue.rule item))); [|reflexivity].
  destruct (member (getProp errorLevel (Issue.rule item)) "severity")
    as [| |b|n|s|id|items|props]; simpl; try reflexivity.
  - now destruct b.
  - now destruct (n =? 0)%Z.
  - destruct (s =? "") eqn:E; simpl; [|reflexivity].
    apply String.eqb_eq in E. now subst s.
Qed.

(** X2: the warnings of a result that count as errors are those of the
    records for which [errorLevel[rule]], own or inherited from
    [Object.prototype], is truthy and has the severity field exactly
    ['error'] (an override is not lower-cased), and those for which it
    is missing or falsy and whose type lower-cases to ['error']. *)
Theorem error_count_of_result
  (errorLevel : obj) (result : list Issue.t) (src : string) :
  countErrors (results (formatResult errorLevel result src)) =
  length
    (filter
       (fun item =>
          if truthy (levelOf errorLevel item)
          then match member (levelOf errorLevel item) "severity" with
               | VStr s => s =? "error"
               | _ => false
               end
          else toLowerCase (Issue.type item) =? "error")
       result).
Proof.
  rewrite formatResult_spec. unfold countErrors. cbn [results flat_map warnings].
  rewrite app_nil_r.
  induction result as [|item rest IH]; cbn [map filter]; [reflexivity|].
  rewrite isErrorSeverity_formatItem.
  destruct (truthy (levelOf errorLevel item)).
  - destruct (member (levelOf errorLevel item) "severity"); auto.
    destruct (s =? "error"); cbn [length]; now rewrite IH.
  - destruct (toLowerCase (Issue.type item) =? "error"); cbn [length];
      now rewrite IH.
Qed.

(** ** The file processor over a run *)

Lemma deciding_no_file_done (p : Plugin) (L : list Envelope) :
  forwarded (deciding p L) = [].
Proof.
  unfold deciding. destruct (errorCount L) as [n|]; [|reflexivity].
  destruct (truthy (getProp (pluginOptions p) "failAfterError") && (0 <? n)%nat);
    reflexivity.
Qed.

Lemma forwarded_reports (w : list FileLintResult) (i k : nat) :
  forwarded (map (fun j => Reported j w) (seq i k)) = [].
Proof. revert i. induction k; intros i; simpl; auto. Qed.

Lemma forwarded_onStreamEnd (p : Plugin) (L : list Envelope) :
  forwarded (onStreamEnd p L) = [].
Proof.
  destruct (onStreamEnd_shape p L) as [k [_ [-> _]]].
  rewrite forwarded_app, forwarded_reports.
  destruct (snd (passLintResultsThroughReporters p L)) as [error|L']; simpl.
  - unfold catching, newPluginError. now destruct (error =? "").
  - apply deciding_no_file_done.
Qed.

(** X3: over a whole run, stream end included, the files handed
    downstream are the files that arrived, unchanged and in arrival
    order, without those whose contents are a stream; this holds
    whatever the linting finds and whatever the reporters do. *)
Theorem forwarded_through (h : Host) (p : Plugin) (files : list File) :
  forwarded (through h p files) =
  filter (fun file => negb (isStream file)) files.
Proof.
  unfold through.
  pose proof (forwarded_transformAll h p files []) as H.
  destruct (transformAll h p files []) as [L events]. simpl in H.
  now rewrite forwarded_app, forwarded_onStreamEnd, app_nil_r.
Qed.

(** X4: whatever the file and the configuration, [onFile] calls [done]
    exactly once and as its last action, after at most one emitted
    error; [done] gets the file unless its contents are a stream. *)
Theorem onFile_done_once
  (h : Host) (p : Plugin) (file : File) (L : list Envelope) :
  exists before,
    snd (onFile h p file L) =
    before ++ [FileDone (if isStream file then None else Some file)]
    /\ forallb isEmit before = true
    /\ (length before <= 1)%nat.
Proof.
  unfold onFile, isStream. destruct (contents file) eqn:C.
  - exists []. simpl. auto.
  - exists [Emit streamingError]. simpl. auto.
  - destruct (selectHint h p) as [hintFn events] eqn:E. simpl.
    exists events. split; [reflexivity|].
    destruct (selectHint_emits h p) as [H|[error H]];
      rewrite E in H; simpl in H; subst events; simpl; auto.
Qed.

(** X5: the list of results only grows.  A run of [onFile] over any
    files keeps the entries the list had, in place, and appends one
    envelope per file with buffered contents; if every old envelope held
    exactly one result, so does every envelope afterwards. *)
Theorem lintPromiseList_append_only
  (h : Host) (p : Plugin) (files : list File) (L : list Envelope) :
  exists appended,
    fst (transformAll h p files L) = L ++ appended
    /\ length appended = length (filter isBuffer files)
    /\ Forall single appended
    /\ (Forall single L -> Forall single (fst (transformAll h p files L))).
Proof.
  rewrite transformAll_spec. cbn [fst]. eexists. split; [reflexivity|].
  assert (S1 : Forall single
                 (map (fun file =>
                         formatResult (errorLevel p) (issuesOf h p file) (path file))
                      (filter isBuffer files))).
  { apply Forall_forall. intros e He. apply in_map_iff in He.
    destruct He as [file [<- _]]. rewrite formatResult_spec.
    eexists. reflexivity. }
  split; [apply length_map|]. split; [exact S1|].
  intros HL. apply Forall_app. split; assumption.
Qed.

Lemma lintPromiseList_append_only_witness :
  Forall single
    (fst (transformAll sampleHost (gulpHtmlcs sampleHost sampleOptions)
            [sampleFile "W" "b.html"]
            [formatResult [] [sampleIssue "no-empty-tag" "ERROR"] "a.html"])).
Proof.
  destruct (lintPromiseList_append_only sampleHost
              (gulpHtmlcs sampleHost sampleOptions)
              [sampleFile "W" "b.html"]
              [formatResult [] [sampleIssue "no-empty-tag" "ERROR"] "a.html"])
    as [appended [_ [_ [_ H]]]].
  apply H. constructor; [|constructor]. eexists. reflexivity.
Defined.

(** X6: for a buffered file, with [configFile] set and the file read and
    parsed, [onFile] lints the contents with [hint] bound to the parsed
    configuration, emits nothing, appends the result and hands the file
    on. *)
Theorem config_applied
  (h : Host) (p : Plugin) (file : File) (text json : string)
  (config : Config h) (L : list Envelope) :
  contents file = Buffer text ->
  truthy (getProp (pluginOptions p) "configFile") = true ->
  readFile h (getProp (pluginOptions p) "configFile") = inr json ->
  parse h json = inr config ->
  onFile h p file L =
  (L ++ [formatResult (errorLevel p) (hint h (Some config) text) (path file)],
   [FileDone (Some file)]).
Proof.
  intros Hc Ht Hr Hp. unfold onFile, selectHint, loadConfig.
  rewrite Hc, Ht, Hr, Hp. reflexivity.
Qed.

Lemma config_applied_witness :
  onFile sampleHost (gulpHtmlcs sampleHost configuredOptions)
         (sampleFile "W" "a.html") []
  = ([formatResult [] [sampleIssue "no-empty-tag" "WARNING"] "a.html"],
     [FileDone (Some (sampleFile "W" "a.html"))]).
Proof.
  apply (config_applied sampleHost (gulpHtmlcs sampleHost configuredOptions)
           (sampleFile "W" "a.html") "W" "{}" tt []
           eq_refl eq_refl eq_refl eq_refl).
Defined.

(** X7: without a truthy [configFile], [onFile] reads and parses
    nothing: a buffered file is linted with the default [hint], nothing
    is emitted, and the outcome is the same under any other file system,
    parser and reporter factory. *)
Theorem config_unset_reads_nothing
  (h : Host) (p : Plugin) (file : File) (L : list Envelope) :
  truthy (getProp (pluginOptions p) "configFile") = false ->
  (forall read parseWith factory,
      onFile (withFileSystem h read parseWith factory) p file L
      = onFile h p file L)
  /\ (forall text,
         contents file = Buffer text ->
         onFile h p file L =
         (L ++ [formatResult (errorLevel p) (hint h None text) (path file)],
          [FileDone (Some file)])).
Proof.
  intros Ht. split.
  - intros read parseWith factory. unfold onFile, selectHint.
    rewrite Ht. reflexivity.
  - intros text Hc. unfold onFile, selectHint. rewrite Hc, Ht. reflexivity.
Qed.

Lemma config_unset_reads_nothing_witness :
  onFile (withFileSystem sampleHost (fun _ => inl "EACCES")
            (fun _ => inl "SyntaxError") (fun _ _ _ => Threw "none"))
         (gulpHtmlcs sampleHost lenientOptions) (sampleFile "E" "a.html") []
  = onFile sampleHost (gulpHtmlcs sampleHost lenientOptions)
           (sampleFile "E" "a.html") [].
Proof.
  apply (proj1 (config_unset_reads_nothing sampleHost
                  (gulpHtmlcs sampleHost lenientOptions)
                  (sampleFile "E" "a.html") [] eq_refl)).
Defined.

(** ** Reporter failures *)

Lemma callReporters_until_throw
  (before : list Reporter) (r : Reporter) (after : list Reporter)
  (w : list FileLintResult) (error : Exn) :
  Forall (fun r' => exists promise, r' w = Returned promise) before ->
  r w = Threw error ->
  forall i : nat,
    callReporters (before ++ r :: after) i w =
    (map (fun j => Reported j w) (seq i (S (length before))), inl error).
Proof.
  intros Hb Hr. induction Hb as [|r' before [promise Hp] _ IH]; intros i.
  - simpl. now rewrite Hr.
  - cbn [app callReporters length]. rewrite Hp, IH. reflexivity.
Qed.

Lemma callReporters_all_return (rs : list Reporter) (w : list FileLintResult) :
  Forall (fun r => exists promise, r w = Returned promise) rs ->
  forall i : nat,
  exists promises,
    callReporters rs i w =
    (map (fun j => Reported j w) (seq i (length rs)), inr promises)
    /\ map (fun r => r w) rs = map Returned promises.
Proof.
  intros H. induction H as [|r rs [promise Hp] _ IH]; intros i.
  - exists []. auto.
  - destruct (IH (S i)) as [promises [Hc Hm]].
    exists (promise :: promises). cbn [callReporters length map seq].
    rewrite Hp, Hc, Hm. auto.
Qed.

Lemma catching_message (p : Plugin) (error : Exn) :
  error <> "" -> catching p error = [Emit (wrappedError p error); StreamDone].
Proof.
  intros H. unfold catching, newPluginError.
  destruct (error =? "") eqn:E; [|reflexivity].
  apply String.eqb_eq in E. contradiction.
Qed.

(** X8: when the reporters before one all return fulfilled promises and
    that one throws an error with a message, [onStreamEnd] calls exactly
    the reporters up to and including it, emits the thrown error with
    [showStack = Boolean(debug)], skips the deciding step and signals
    completion. *)
Theorem thrown_error_reported
  (p : Plugin) (L : list Envelope)
  (before : list Reporter) (r : Reporter) (after : list Reporter)
  (error : Exn) :
  reporters p = before ++ r :: after ->
  Forall (fun r' => r' (flatten L) = Returned Fulfilled) before ->
  r (flatten L) = Threw error ->
  error <> "" ->
  onStreamEnd p L =
  map (fun i => Reported i (flatten L)) (seq 0 (S (length before)))
  ++ [ Emit {| plugin := "gulp-htmlcs";
               cause := Wrapped error;
               showStack := truthy (getProp (pluginOptions p) "debug") |};
       StreamDone ].
Proof.
  intros Hrs Hb Hr Hm.
  assert (Hb' : Forall (fun r' => exists promise, r' (flatten L) = Returned promise)
                       before).
  { eapply Forall_impl; [|exact Hb]. intros r' H. exists Fulfilled. exact H. }
  unfold onStreamEnd, passLintResultsThroughReporters.
  rewrite Hrs, (callReporters_until_throw before r after _ error Hb' Hr).
  now rewrite (catching_message p error Hm).
Qed.

Lemma thrown_error_reported_witness :
  onStreamEnd (gulpHtmlcs sampleHost throwingOptions) []
  = [ Reported 0 [];
      Emit {| plugin := "gulp-htmlcs";
              cause := Wrapped "formatter is not a function";
              showStack := false |};
      StreamDone ].
Proof.
  apply (thrown_error_reported (gulpHtmlcs sampleHost throwingOptions) []
           [] (sampleReporter (VObj [("formatter", VStr "missing")]))
           [sampleReporter (VObj [("formatter", VStr "string")])]
           "formatter is not a function" eq_refl (Forall_nil _) eq_refl).
  discriminate.
Defined.

(** X9: when every reporter returns a promise, some promise is rejected
    and every rejection carries a message, [onStreamEnd] still calls
    every reporter, once and in order, then emits the error of a
    rejected promise with [showStack = Boolean(debug)], skips the
    deciding step and signals completion. *)
Theorem rejection_reported (p : Plugin) (L : list Envelope) :
  Forall (fun r => exists promise, r (flatten L) = Returned promise)
         (reporters p) ->
  Exists (fun r => exists instant error,
              r (flatten L) = Returned (Rejected instant error))
         (reporters p) ->
  Forall (fun r => forall instant error,
              r (flatten L) = Returned (Rejected instant error) ->
              error <> "")
         (reporters p) ->
  exists error,
    onStreamEnd p L =
    map (fun i => Reported i (flatten L)) (seq 0 (length (reporters p)))
    ++ [ Emit {| plugin := "gulp-htmlcs";
                 cause := Wrapped error;
                 showStack := truthy (getProp (pluginOptions p) "debug") |};
         StreamDone ]
    /\ error <> ""
    /\ exists r instant,
        In r (reporters p)
        /\ r (flatten L) = Returned (Rejected instant error).
Proof.
  intros Hall Hex Hmsg.
  destruct (callReporters_all_return (reporters p) (flatten L) Hall 0)
    as [promises [Hc Hm]].
  destruct (firstRejection promises) as [[instant error]|] eqn:F.
  - pose proof (firstRejection_some _ _ _ F) as Fin.
    assert (Hin : In (Returned (Rejected instant error))
                     (map (fun r => r (flatten L)) (reporters p))).
    { rewrite Hm. now apply in_map. }
    apply in_map_iff in Hin. destruct Hin as [r [Hr Hin]].
    assert (Hne : error <> "").
    { rewrite Forall_forall in Hmsg. apply (Hmsg r Hin instant error Hr). }
    exists error. split; [|split; [exact Hne | eauto]].
    unfold onStreamEnd, passLintResultsThroughReporters.
    rewrite Hc, F. cbn [fst snd].
    now rewrite (catching_message p error Hne).
  - exfalso. apply firstRejection_none in F.
    apply Exists_exists in Hex. destruct Hex as [r [Hin [instant [error Hr]]]].
    assert (Hin' : In (r (flatten L)) (map Returned promises)).
    { rewrite <- Hm. apply (in_map (fun r0 : Reporter => r0 (flatten L)) _ _ Hin). }
    rewrite Hr in Hin'.
    apply in_map_iff in Hin'. destruct Hin' as [promise [Hp Hin']].
    rewrite Forall_forall in F. specialize (F promise Hin').
    subst promise. discriminate.
Qed.

Lemma rejection_reported_witness :
  exists error,
    onStreamEnd (gulpHtmlcs sampleHost rejectingOptions) []
    = [ Reported 0 []; Reported 1 []; Reported 2 [];
        Emit {| plugin := "gulp-htmlcs";
                cause := Wrapped error;
                showStack := false |};
        StreamDone ].
Proof.
  destruct (rejection_reported (gulpHtmlcs sampleHost rejectingOptions) [])
    as [error [H _]].
  - repeat constructor; eexists; reflexivity.
  - apply Exists_cons_tl. apply Exists_cons_hd. exists 1%nat, "EIO". reflexivity.
  - repeat constructor; intros instant error H; try discriminate.
    inversion H. discriminate.
  - exists error. exact H.
Defined.

(** ** What a run emits *)

Lemma emitted_app (a b : list Event) :
  emitted (a ++ b) = emitted a ++ emitted b.
Proof.
  induction a as [|e a IH]; simpl; auto.
  destruct e; simpl; now rewrite IH.
Qed.

Lemma emitted_reports (w : list FileLintResult) (i k : nat) :
  emitted (map (fun j => Reported j w) (seq i k)) = [].
Proof. revert i. induction k; intros i; simpl; auto. Qed.

Lemma emitted_onFile (h : Host) (p : Plugin) (file : File) (L : list Envelope) :
  emitted (snd (onFile h p file L)) =
  match contents file with
  | Null => []
  | Stream => [streamingError]
  | Buffer _ => emitted (snd (selectHint h p))
  end.
Proof.
  unfold onFile. destruct (contents file); simpl; auto.
  destruct (selectHint h p) as [hintFn events]. simpl.
  rewrite emitted_app. simpl. apply app_nil_r.
Qed.

Lemma emitted_transformAll (h : Host) (p : Plugin) (files : list File) :
  forall L : list Envelope,
    emitted (snd (transformAll h p files L)) =
    flat_map (fun file =>
                match contents file with
                | Null => []
                | Stream => [streamingError]
                | Buffer _ => emitted (snd (selectHint h p))
                end) files.
Proof.
  intros L. rewrite transformAll_spec. cbn [snd].
  induction files as [|file rest IH]; simpl; auto.
  now rewrite emitted_app, emitted_onFile, IH.
Qed.

Lemma onStreamEnd_fulfilled (p : Plugin) (L : list Envelope) :
  Forall (fun r => r (flatten L) = Returned Fulfilled) (reporters p) ->
  onStreamEnd p L =
  map (fun i => Reported i (flatten L)) (seq 0 (length (reporters p)))
  ++ deciding p L.
Proof.
  intros H.
  assert (Hall : Forall (fun r => exists promise, r (flatten L) = Returned promise)
                        (reporters p)).
  { eapply Forall_impl; [|exact H]. intros r Hr. exists Fulfilled. exact Hr. }
  destruct (callReporters_all_return (reporters p) (flatten L) Hall 0)
    as [promises [Hc Hm]].
  assert (F : firstRejection promises = None).
  { apply firstRejection_none. apply Forall_forall. intros promise Hin.
    assert (Hin' : In (Returned promise) (map Returned promises))
      by now apply in_map.
    rewrite <- Hm in Hin'.
    apply in_map_iff in Hin'. destruct Hin' as [r [Hr Hin']].
    rewrite Forall_forall in H. rewrite (H r Hin') in Hr. congruence. }
  unfold onStreamEnd, passLintResultsThroughReporters. now rewrite Hc, F.
Qed.

(** X10: a run in which no file has buffered contents (no file at all,
    or only null and stream files) records no result; if the reporters'
    promises are fulfilled, every reporter is still called, with an
    empty array, and the stream completes without a threshold error,
    whatever [failAfterError] is. *)
Theorem nothing_linted_never_fails (h : Host) (p : Plugin) (files : list File) :
  filter isBuffer files = [] ->
  Forall (fun r => r [] = Returned Fulfilled) (reporters p) ->
  fst (transformAll h p files []) = []
  /\ through h p files =
     snd (transformAll h p files [])
     ++ map (fun i => Reported i []) (seq 0 (length (reporters p)))
     ++ [StreamDone].
Proof.
  intros Hb Hr.
  assert (HL : fst (transformAll h p files []) = []).
  { rewrite transformAll_spec. cbn [fst]. now rewrite Hb. }
  split; [assumption|]. unfold through.
  destruct (transformAll h p files []) as [L events]. simpl in HL. subst L.
  cbn [snd]. f_equal. rewrite onStreamEnd_fulfilled by exact Hr.
  unfold deciding. simpl. now rewrite andb_false_r.
Qed.

Lemma nothing_linted_never_fails_witness :
  through sampleHost (gulpHtmlcs sampleHost sampleOptions)
          [ {| contents := Null; path := "a.html" |};
            {| contents := Stream; path := "b.html" |} ]
  = [ FileDone (Some {| contents := Null; path := "a.html" |});
      Emit streamingError;
      FileDone None;
      Reported 0 [];
      StreamDone ].
Proof.
  apply (proj2 (nothing_linted_never_fails sampleHost
                  (gulpHtmlcs sampleHost sampleOptions)
                  [ {| contents := Null; path := "a.html" |};
                    {| contents := Stream; path := "b.html" |} ]
                  eq_refl (Forall_cons _ eq_refl (Forall_nil _)))).
Defined.

(** X11: every error that a run emits is one of three: the streaming
    error, a caught error wrapped with [showStack = Boolean(debug)], or
    the threshold error for a positive count.  So each carries the
    plugin name ['gulp-htmlcs'], and none asks for a stack unless
    [debug] is truthy. *)
Theorem emitted_errors_classified
  (h : Host) (p : Plugin) (files : list File) (e : PluginError) :
  In e (emitted (through h p files)) ->
  (e = streamingError
   \/ (exists error, e = wrappedError p error)
   \/ (exists n, (0 < n)%nat /\ e = thresholdError n))
  /\ plugin e = "gulp-htmlcs"
  /\ (showStack e = true -> truthy (getProp (pluginOptions p) "debug") = true).
Proof.
  intros Hin.
  assert (K : e = streamingError
              \/ (exists error, e = wrappedError p error)
              \/ (exists n, (0 < n)%nat /\ e = thresholdError n)).
  { unfold through in Hin.
    pose proof (emitted_transformAll h p files []) as He.
    pose proof (deciding_spec h p files) as D. cbv zeta in D.
    destruct (transformAll h p files []) as [L events]. cbn [fst snd] in *.
    rewrite emitted_app, He in Hin. apply in_app_iff in Hin.
    destruct Hin as [Hin|Hin].
    - apply in_flat_map in Hin. destruct Hin as [file [_ Hin]].
      destruct (contents file).
      + destruct Hin.
      + destruct Hin as [<-|[]]. auto.
      + destruct (selectHint_emits h p) as [H|[error H]];
          rewrite H in Hin; simpl in Hin.
        * destruct Hin.
        * destruct Hin as [<-|[]]. eauto.
    - destruct (onStreamEnd_shape p L) as [k [_ [Hs _]]].
      rewrite Hs, emitted_app, emitted_reports in Hin. simpl in Hin.
      destruct (snd (passLintResultsThroughReporters p L)) as [error|L'].
      + unfold catching, newPluginError in Hin.
        destruct (error =? ""); simpl in Hin; [destruct Hin|].
        destruct Hin as [<-|[]]. eauto.
      + rewrite D in Hin.
        destruct (truthy (getProp (pluginOptions p) "failAfterError")) ;
          simpl in Hin; [|destruct Hin].
        destruct (0 <? countErrors (flatten L))%nat eqn:E;
          simpl in Hin; [|destruct Hin].
        destruct Hin as [<-|[]]. apply Nat.ltb_lt in E. eauto. }
  split; [exact K|].
  destruct K as [->|[[error ->]|[n [_ ->]]]]; simpl; split; auto; discriminate.
Qed.

Lemma emitted_errors_classified_witness :
  plugin (thresholdError 1) = "gulp-htmlcs".
Proof.
  apply (emitted_errors_classified sampleHost
           (gulpHtmlcs sampleHost mixedOptions)
           [sampleFile "EW" "a.html"] (thresholdError 1)).
  left. reflexivity.
Defined.

(** X12: the failure of a configuration file to load is not kept from
    one file to the next but emitted for each buffered file: while the
    files are processed, the emitted errors are, in arrival order, the
    failure for every buffered file and the streaming error for every
    stream file. *)
Theorem config_failure_for_each_file
  (h : Host) (p : Plugin) (files : list File) (L : list Envelope)
  (error : Exn) :
  truthy (getProp (pluginOptions p) "configFile") = true ->
  loadConfig h p = inl error ->
  emitted (snd (transformAll h p files L)) =
  flat_map (fun file =>
              match contents file with
              | Null => []
              | Stream => [streamingError]
              | Buffer _ => [wrappedError p error]
              end) files.
Proof.
  intros Ht Hl. rewrite emitted_transformAll.
  assert (E : emitted (snd (selectHint h p)) = [wrappedError p error]).
  { unfold selectHint. now rewrite Ht, Hl. }
  now rewrite E.
Qed.

Lemma config_failure_for_each_file_witness :
  emitted (snd (transformAll sampleHost
                  (gulpHtmlcs sampleHost brokenConfigOptions)
                  [sampleFile "E" "a.html"; sampleFile "W" "b.html"] []))
  = [ wrappedError (gulpHtmlcs sampleHost brokenConfigOptions) "ENOENT";
      wrappedError (gulpHtmlcs sampleHost brokenConfigOptions) "ENOENT" ].
Proof.
  apply (config_failure_for_each_file sampleHost
           (gulpHtmlcs sampleHost brokenConfigOptions)
           [sampleFile "E" "a.html"; sampleFile "W" "b.html"] [] "ENOENT"
           eq_refl eq_refl).
Defined.

(** X13: with [configFile] unset, or set and loaded, the only errors
    emitted while the files are processed are the streaming errors, one
    for each stream file. *)
Theorem only_streaming_errors
  (h : Host) (p : Plugin) (files : list File) (L : list Envelope) :
  truthy (getProp (pluginOptions p) "configFile") = false
  \/ (exists config, loadConfig h p = inr config) ->
  emitted (snd (transformAll h p files L)) =
  map (fun _ => streamingError) (filter isStream files).
Proof.
  intros H. rewrite emitted_transformAll.
  assert (E : emitted (snd (selectHint h p)) = []).
  { unfold selectHint. destruct H as [Ht|[config Hl]].
    - now rewrite Ht.
    - rewrite Hl.
      now destruct (truthy (getProp (pluginOptions p) "configFile")). }
  rewrite E. induction files as [|file rest IH]; simpl; auto.
  unfold isStream. destruct (contents file); simpl; now rewrite IH.
Qed.

Lemma only_streaming_errors_witness :
  emitted (snd (transformAll sampleHost
                  (gulpHtmlcs sampleHost configuredOptions)
                  [ sampleFile "E" "a.html";
                    {| contents := Stream; path := "b.html" |} ] []))
  = [streamingError].
Proof.
  apply (only_streaming_errors sampleHost
           (gulpHtmlcs sampleHost configuredOptions)
           [ sampleFile "E" "a.html";
             {| contents := Stream; path := "b.html" |} ] []
           (or_intror (ex_intro _ tt eq_refl))).
Defined.

(** ** The closure that [gulpHtmlcs] builds *)

Lemma pluginOptions_lookup (options : value) (key : string) :
  wf options = true ->
  getOwn (pluginOptionsOf options) key =
  match getOwn (ownProps options) key with
  | Some v => Some v
  | None => getOwn defaults key
  end.
Proof.
  intros W. destruct (wf_ownProps options W) as [U Wv].
  unfold pluginOptionsOf.
  rewrite deepExtend_ownProps, (getOwn_extendWith assign _ U).
  destruct (getOwn (ownProps options) key) as [v|] eqn:E; auto.
  f_equal. apply assign_copy; [eauto | apply defaults_hold_no_fields].
Qed.

(** X14: the reporters of the closure are made by [reporterFactory]
    from the caller's [reporters] array, one per configuration and in the
    same order, each with the merged plugin options; without a
    [reporters] option there is no reporter. *)
Theorem reporters_from_configs (h : Host) (options : value) :
  wf options = true ->
  (forall configs,
      getOwn (ownProps options) "reporters" = Some (VArr configs) ->
      reporters (gulpHtmlcs h options) =
      map (fun config => reporterFactory h config (pluginOptionsOf options))
          configs)
  /\ (getOwn (ownProps options) "reporters" = None ->
      reporters (gulpHtmlcs h options) = []).
Proof.
  intros W. split.
  - intros configs H. unfold gulpHtmlcs, getProp. cbn [reporters].
    now rewrite (pluginOptions_lookup options "reporters" W), H.
  - intros H. unfold gulpHtmlcs, getProp. cbn [reporters].
    now rewrite (pluginOptions_lookup options "reporters" W), H.
Qed.

Lemma reporters_from_configs_witness :
  length (reporters (gulpHtmlcs sampleHost rejectingOptions)) = 3%nat.
Proof.
  rewrite (proj1 (reporters_from_configs sampleHost rejectingOptions eq_refl)
             _ eq_refl).
  reflexivity.
Defined.

(** X15: the [errorLevel] that the normalizer consults is the caller's
    [errorLevel] object, entry for entry, and is empty when the caller
    gives none. *)
Theorem errorLevel_from_options (h : Host) (options : value) :
  wf options = true ->
  (forall entries,
      getOwn (ownProps options) "errorLevel" = Some (VObj entries) ->
      errorLevel (gulpHtmlcs h options) = entries)
  /\ (getOwn (ownProps options) "errorLevel" = None ->
      errorLevel (gulpHtmlcs h options) = []).
Proof.
  intros W. split.
  - intros entries H. unfold gulpHtmlcs, getProp. cbn [errorLevel].
    now rewrite (pluginOptions_lookup options "errorLevel" W), H.
  - intros H. unfold gulpHtmlcs, getProp. cbn [errorLevel].
    now rewrite (pluginOptions_lookup options "errorLevel" W), H.
Qed.

Lemma errorLevel_from_options_witness :
  errorLevel (gulpHtmlcs sampleHost lenientOptions)
  = [("no-empty-tag", VObj [("severity", VStr "warning")])].
Proof.
  apply (proj1 (errorLevel_from_options sampleHost lenientOptions eq_refl)
           _ eq_refl).
Defined.

(** ** The count over a run *)

(** X16: the number of error-severity warnings of a run over files
    arriving as two successive batches is the sum of the numbers of the
    runs over each batch: no file's count depends on another file. *)
Theorem error_count_additive (h : Host) (p : Plugin) (a b : list File) :
  countErrors (flatten (fst (transformAll h p (a ++ b) []))) =
  (countErrors (flatten (fst (transformAll h p a [])))
   + countErrors (flatten (fst (transformAll h p b []))))%nat.
Proof.
  rewrite !flatten_transformAll. unfold countErrors.
  now rewrite filter_app, map_app, flat_map_app, filter_app, length_app.
Qed.

Lemma Permutation_filter_keep {A : Type} (f : A -> bool) (l l' : list A) :
  Permutation l l' -> Permutation (filter f l) (filter f l').
Proof.
  induction 1 as [|x l l' _ IH|x y l|l l' l'' _ IH1 _ IH2]; simpl.
  - constructor.
  - destruct (f x); auto.
  - destruct (f x), (f y); auto. constructor.
  - now transitivity (filter f l').
Qed.

(** X17: the deciding step does not depend on the order in which the
    files arrived: two runs over the same files in different orders
    count the same number of errors and decide alike. *)
Theorem decision_ignores_arrival_order
  (h : Host) (p : Plugin) (files files' : list File) :
  Permutation files files' ->
  countErrors (flatten (fst (transformAll h p files []))) =
  countErrors (flatten (fst (transformAll h p files' [])))
  /\ deciding p (fst (transformAll h p files [])) =
     deciding p (fst (transformAll h p files' [])).
Proof.
  intros HP.
  assert (C : countErrors (flatten (fst (transformAll h p files []))) =
              countErrors (flatten (fst (transformAll h p files' [])))).
  { rewrite !flatten_transformAll. unfold countErrors.
    apply Permutation_length, Permutation_filter_keep, Permutation_flat_map,
          Permutation_map, Permutation_filter_keep. exact HP. }
  split; [exact C|].
  pose proof (deciding_spec h p files) as D. cbv zeta in D.
  pose proof (deciding_spec h p files') as D'. cbv zeta in D'.
  now rewrite D, D', C.
Qed.

Lemma decision_ignores_arrival_order_witness :
  deciding (gulpHtmlcs sampleHost mixedOptions)
    (fst (transformAll sampleHost (gulpHtmlcs sampleHost mixedOptions)
            [sampleFile "E" "a.html"; sampleFile "EW" "b.html"] []))
  = deciding (gulpHtmlcs sampleHost mixedOptions)
      (fst (transformAll sampleHost (gulpHtmlcs sampleHost mixedOptions)
              [sampleFile "EW" "b.html"; sampleFile "E" "a.html"] [])).
Proof.
  apply (proj2 (decision_ignores_arrival_order sampleHost
                  (gulpHtmlcs sampleHost mixedOptions)
                  [sampleFile "E" "a.html"; sampleFile "EW" "b.html"]
                  [sampleFile "EW" "b.html"; sampleFile "E" "a.html"]
                  (perm_swap _ _ []))).
Defined.

(** ** The flag and the count *)

(** X18: when [errorLevel[rule]], own or inherited from
    [Object.prototype], is truthy for no record, a result that is
    [errored] holds at least one warning of severity ['error']; if
    moreover every record has type ['ERROR'] or ['WARNING'], the result
    is [errored] exactly when it holds one. *)
Theorem errored_agrees_without_overrides
  (errorLevel : obj) (result : list Issue.t) (src : string) :
  (forall item, In item result -> truthy (levelOf errorLevel item) = false) ->
  exists r,
    results (formatResult errorLevel result src) = [r]
    /\ (errored r = true -> (0 < countErrors [r])%nat)
    /\ ((forall item, In item result ->
                      Issue.type item = "ERROR" \/ Issue.type item = "WARNING") ->
        (0 < countErrors [r])%nat -> errored r = true).
Proof.
  intros Hno. rewrite formatResult_spec. eexists. split; [reflexivity|].
  unfold countErrors. cbn [flat_map warnings errored]. rewrite app_nil_r.
  split.
  - intros He. apply existsb_exists in He. destruct He as [item [Hin Ht]].
    apply String.eqb_eq in Ht.
    assert (Hw : In (snd (formatItem errorLevel item false))
                    (filter isErrorSeverity
                       (map (fun item => snd (formatItem errorLevel item false))
                            result))).
    { apply filter_In. split.
      - apply (in_map (fun item => snd (formatItem errorLevel item false)) _ _ Hin).
      - rewrite isErrorSeverity_formatItem, (Hno item Hin), Ht. reflexivity. }
    destruct (filter isErrorSeverity _); [contradiction|]. simpl. lia.
  - intros Hty Hpos. apply existsb_exists.
    destruct (filter isErrorSeverity
                (map (fun item => snd (formatItem errorLevel item false)) result))
      as [|w ws] eqn:F; [simpl in Hpos; lia|].
    assert (Hw : In w (filter isErrorSeverity
                         (map (fun item => snd (formatItem errorLevel item false))
                              result))) by (rewrite F; simpl; auto).
    apply filter_In in Hw. destruct Hw as [Hw Hs].
    apply in_map_iff in Hw. destruct Hw as [item [<- Hin]].
    exists item. split; [assumption|].
    rewrite isErrorSeverity_formatItem, (Hno item Hin) in Hs.
    destruct (Hty item Hin) as [Ht|Ht]; rewrite Ht in *;
      [reflexivity | discriminate].
Qed.

Lemma errored_agrees_without_overrides_witness :
  exists r,
    results (formatResult [] [sampleIssue "no-empty-tag" "ERROR"] "a.html") = [r]
    /\ (errored r = true -> (0 < countErrors [r])%nat).
Proof.
  destruct (errored_agrees_without_overrides []
              [sampleIssue "no-empty-tag" "ERROR"] "a.html")
    as [r [Hr [He _]]].
  - intros item [<-|[]]. reflexivity.
  - exists r. auto.
Defined.

(** ** Completion when failures carry a message *)

(** X19: for the list of results of any run, if no reporter throws, or
    rejects with, an error that has no message, [onStreamEnd] signals
    completion exactly once, as its last action and without an uncaught
    error.  When every reporter's promise is fulfilled the deciding step
    runs and completion follows the threshold error, if any; when a
    reporter throws or rejects, that error is emitted with
    [showStack = Boolean(debug)], the deciding step is skipped and
    completion is still signalled. *)
Theorem stream_completion_once (h : Host) (p : Plugin) (files : list File) :
  let L := fst (transformAll h p files []) in
  let trace := onStreamEnd p L in
  (forall r, In r (reporters p) ->
             r (flatten L) <> Threw ""
             /\ forall instant, r (flatten L) <> Returned (Rejected instant "")) ->
  length (filter isStreamDone trace) = 1%nat
  /\ (exists before, trace = before ++ [StreamDone])
  /\ (forall error, ~ In (Uncaught error) trace)
  /\ exists reports,
      forallb isReported reports = true
      /\ match snd (passLintResultsThroughReporters p L) with
         | inl error =>
             trace =
             reports
             ++ [ Emit {| plugin := "gulp-htmlcs";
                          cause := Wrapped error;
                          showStack :=
                            truthy (getProp (pluginOptions p) "debug") |};
                  StreamDone ]
             /\ exists r,
                 In r (reporters p)
                 /\ (r (flatten L) = Threw error
                     \/ exists t, r (flatten L) = Returned (Rejected t error))
         | inr _ =>
             (trace = reports ++ [StreamDone]
              \/ exists n, (0 < n)%nat
                           /\ trace = reports
                                      ++ [Emit (thresholdError n); StreamDone])
             /\ Forall (fun r => r (flatten L) = Returned Fulfilled)
                       (reporters p)
         end.
Proof.
  intros L trace Hmsg.
  destruct (onStreamEnd_shape p L) as [k [_ [Hshape _]]].
  fold trace in Hshape.
  pose proof (reported_only (flatten L) 0 k) as Hrep.
  set (reports := map (fun i => Reported i (flatten L)) (seq 0 k)) in *.
  destruct (reported_not_done reports Hrep) as [Hnd _].
  pose proof (deciding_spec h p files) as D. cbv zeta in D. fold L in D.
  assert (Hnu : forall error, ~ In (Uncaught error) reports).
  { intros error Hin. unfold reports in Hin. apply in_map_iff in Hin.
    destruct Hin as [j [Hj _]]. discriminate. }
  assert (Hend : forall tail,
             (forall error, ~ In (Uncaught error) tail) ->
             forall error, ~ In (Uncaught error) (reports ++ tail)).
  { intros tail Ht error Hin. apply in_app_iff in Hin.
    destruct Hin as [Hin|Hin]; [apply (Hnu error Hin) | apply (Ht error Hin)]. }
  destruct (snd (passLintResultsThroughReporters p L)) as [error|L'] eqn:E.
  - destruct (passLintResults_inl p L error E) as [r [Hin Hr]].
    assert (Hne : error <> "").
    { intros ->. destruct (Hmsg r Hin) as [Ht Hj].
      destruct Hr as [Hr|[t Hr]]; [exact (Ht Hr) | exact (Hj t Hr)]. }
    rewrite (catching_message p error Hne) in Hshape.
    rewrite Hshape, filter_app, Hnd. simpl.
    split; [reflexivity|]. split.
    { exists (reports ++ [Emit (wrappedError p error)]).
      now rewrite <- app_assoc. }
    split.
    { apply Hend. intros e [H|[H|[]]]; discriminate. }
    exists reports. split; [assumption|]. split; [reflexivity|]. eauto.
  - rewrite Hshape, D, filter_app, Hnd.
    pose proof (passLintResults_inr p L L' E) as [_ Hall].
    destruct (truthy (getProp (pluginOptions p) "failAfterError")
              && (0 <? countErrors (flatten L))%nat) eqn:C; simpl.
    + split; [reflexivity|]. split.
      { exists (reports ++ [Emit (thresholdError (countErrors (flatten L)))]).
        now rewrite <- app_assoc. }
      split.
      { apply Hend. intros e [H|[H|[]]]; discriminate. }
      exists reports. split; [assumption|]. split; [|exact Hall].
      right. exists (countErrors (flatten L)). split; [|reflexivity].
      apply andb_prop in C. destruct C as [_ C]. now apply Nat.ltb_lt.
    + split; [reflexivity|]. split; [exists reports; reflexivity|].
      split.
      { apply Hend. intros e [H|[]]; discriminate. }
      exists reports. split; [assumption|]. split; [|exact Hall].
      left. reflexivity.
Qed.

Lemma stream_completion_once_witness :
  length
    (filter isStreamDone
       (onStreamEnd (gulpHtmlcs sampleHost rejectingOptions)
          (fst (transformAll sampleHost (gulpHtmlcs sampleHost rejectingOptions)
                  [sampleFile "E" "a.html"] []))))
  = 1%nat.
Proof.
  apply (stream_completion_once sampleHost
           (gulpHtmlcs sampleHost rejectingOptions) [sampleFile "E" "a.html"]).
  intros r [<-|[<-|[<-|[]]]]; split; try discriminate;
    intros instant; discriminate.
Defined.
